(** * Permission resolution of the e-learning backend

    A shallow embedding of [src/controllers/superAdminController.js]: the
    four tables the controller reads and writes, the SQL statements it
    sends through [pool.query], and its request handlers.  Each handler is
    a computation that threads the database and the list of statements
    sent so far; a statement may throw, and the handler's [try]/[catch]
    turns that into the 500 answer. *)

From Stdlib Require Import String List ZArith Bool Arith Lia.
Import ListNotations.
Local Open Scope string_scope.
Local Open Scope list_scope.

(** ** The tables *)

(** [permissions (id, name)] *)
Record Permission := mkPermission { perm_id : Z; perm_name : string }.

(** [users]: the two columns the controller reads.  The empty string
    stands for a role that JavaScript takes as falsy (NULL or ''). *)
Record User := mkUser { user_id : Z; user_role : string }.

(** [role_permissions (role, permissionId)] *)
Record RolePermission := mkRolePermission { rp_role : string; rp_permissionId : Z }.

(** [user_permissions (userId, permissionId, type)] *)
Record UserPermission :=
  mkUserPermission { up_userId : Z; up_permissionId : Z; up_type : string }.

Record DB := mkDB {
  users : list User;
  permissions : list Permission;
  role_permissions : list RolePermission;
  user_permissions : list UserPermission
}.

Definition with_user_permissions (d : DB) (t : list UserPermission) : DB :=
  mkDB (users d) (permissions d) (role_permissions d) t.

Definition with_role_permissions (d : DB) (t : list RolePermission) : DB :=
  mkDB (users d) (permissions d) t (user_permissions d).

(** ** SQL on the tables *)

Definition mem (x : string) (l : list string) : bool := existsb (String.eqb x) l.

(** Modelled from the spec: the declaration of [user_permissions] is not
    among the sources.  Its unique key, the one that
    [ON DUPLICATE KEY UPDATE] reacts to, is the pair (userId, permissionId). *)
Definition same_key (a b : UserPermission) : bool :=
  (up_userId a =? up_userId b)%Z && (up_permissionId a =? up_permissionId b)%Z.

Definition set_type (r : UserPermission) (t : string) : UserPermission :=
  mkUserPermission (up_userId r) (up_permissionId r) t.

(** [INSERT INTO user_permissions ... VALUES r ON DUPLICATE KEY UPDATE type = t]
    for one row: the row carrying the key gets its type overwritten, and the
    new row is added only when no row carries the key. *)
Fixpoint upsert (r : UserPermission) (t : string) (tbl : list UserPermission)
  : list UserPermission :=
  match tbl with
  | [] => [r]
  | x :: rest =>
      if same_key x r then set_type x t :: rest else x :: upsert r t rest
  end.

(** The same statement with several rows in [VALUES], taken in order. *)
Definition upsert_all (values : list UserPermission) (t : string)
  (tbl : list UserPermission) : list UserPermission :=
  fold_left (fun acc r => upsert r t acc) values tbl.

(** [SELECT id, name FROM permissions WHERE name IN (names)] *)
Definition permissions_by_names (names : list string) (d : DB) : list Permission :=
  filter (fun p => mem (perm_name p) names) (permissions d).

(** [SELECT id FROM permissions WHERE name = name] *)
Definition permission_ids_by_name (name : string) (d : DB) : list Z :=
  map perm_id (filter (fun p => perm_name p =? name) (permissions d)).

(** [SELECT role FROM users WHERE id = userId] *)
Definition roles_of_user (userId : Z) (d : DB) : list string :=
  map user_role (filter (fun u => (user_id u =? userId)%Z) (users d)).

(** The rows of [permissions] joined to a permission identifier. *)
Definition joined (permissionId : Z) (d : DB) : list Permission :=
  filter (fun p => (permissionId =? perm_id p)%Z) (permissions d).

(** [SELECT p.name, up.type FROM user_permissions up JOIN permissions p
     ON up.permissionId = p.id WHERE up.userId = userId] *)
Definition overrides_of_user (userId : Z) (d : DB) : list (string * string) :=
  flat_map (fun up => map (fun p => (perm_name p, up_type up)) (joined (up_permissionId up) d))
           (filter (fun up => (up_userId up =? userId)%Z) (user_permissions d)).

(** [SELECT p.name FROM role_permissions rp JOIN permissions p
     ON rp.permissionId = p.id WHERE rp.role = role] *)
Definition names_of_role (role : string) (d : DB) : list string :=
  flat_map (fun rp => map perm_name (joined (rp_permissionId rp) d))
           (filter (fun rp => rp_role rp =? role) (role_permissions d)).

(** The statements of the controller, with their parameters.  A parameter
    that may be [undefined] in the handler is sent as NULL ([None]). *)
Inductive Stmt :=
| SelectPermissions
| SelectUserRole (userId : Z)
| SelectUserOverrides (userId : Z)
| SelectRoleNames (role : string)
| SelectPermissionsIn (names : list string)
| SelectPermissionId (name : string)
| InsertUserPermissions (values : list UserPermission) (onDuplicate : string)
| InsertUserPermission (userId : Z) (permissionId : option Z) (type onDuplicate : string)
| DeleteUserPermission (userId : Z) (permissionId : option Z)
| DeleteUserPermissions (userId : Z)
| DeleteRolePermissions (role : string)
| InsertRolePermissions (values : list RolePermission).

(** Modelled from the spec: the declaration of [user_permissions] is not
    among the sources.  [permissionId] is a key column of the table, so a
    row to insert needs one: with NULL in its place there is no row. *)
Definition row_to_insert (userId : Z) (permissionId : option Z) (type : string)
  : option UserPermission :=
  match permissionId with
  | Some p => Some (mkUserPermission userId p type)
  | None => None
  end.

(** The effect of a statement on the database; [None] when the database
    refuses it.  A comparison with NULL selects no row. *)
Definition apply_stmt (s : Stmt) (d : DB) : option DB :=
  match s with
  | InsertUserPermissions values t =>
      Some (with_user_permissions d (upsert_all values t (user_permissions d)))
  | InsertUserPermission u p ty t =>
      match row_to_insert u p ty with
      | Some r => Some (with_user_permissions d (upsert r t (user_permissions d)))
      | None => None
      end
  | DeleteUserPermission u (Some p) =>
      Some (with_user_permissions d
              (filter (fun r => negb ((up_userId r =? u)%Z && (up_permissionId r =? p)%Z))
                      (user_permissions d)))
  | DeleteUserPermission _ None => Some d
  | DeleteUserPermissions u =>
      Some (with_user_permissions d
              (filter (fun r => negb (up_userId r =? u)%Z) (user_permissions d)))
  | DeleteRolePermissions role =>
      Some (with_role_permissions d
              (filter (fun r => negb (rp_role r =? role)) (role_permissions d)))
  | InsertRolePermissions values =>
      Some (with_role_permissions d (role_permissions d ++ values))
  | _ => Some d
  end.

(** ** Handlers as computations *)

Inductive Outcome (A : Type) :=
| Returned (a : A)
| Thrown.
Arguments Returned {A} a.
Arguments Thrown {A}.

(** What a request has done so far: the database as the statements left
    it (each [pool.query] commits on its own), and the statements sent. *)
Record Session := mkSession { db : DB; log : list Stmt }.

(** A computation reads which storage calls fail ([faulty n] for the
    [n]-th call of the request) and threads the session. *)
Definition Async (A : Type) : Type := (nat -> bool) -> Session -> Outcome A * Session.

Definition ret {A} (a : A) : Async A := fun _ s => (Returned a, s).

Definition bind {A B} (m : Async A) (k : A -> Async B) : Async B :=
  fun faulty s =>
    match m faulty s with
    | (Returned a, s') => k a faulty s'
    | (Thrown, s') => (Thrown, s')
    end.

Notation "x <- m ;; k" := (bind m (fun x => k))
  (at level 61, m at next level, right associativity).
Notation "m ;;; k" := (bind m (fun _ => k))
  (at level 61, right associativity).

(** [await pool.query(stmt)]: the call is recorded; it throws when the
    storage fails or refuses the statement, else the statement takes effect
    and [rows] is what it returns. *)
Definition pool_query {A} (s : Stmt) (rows : DB -> A) : Async A :=
  fun faulty st =>
    let st' d := mkSession d (log st ++ [s]) in
    if faulty (length (log st)) then (Thrown, st' (db st))
    else match apply_stmt s (db st) with
         | Some d' => (Returned (rows (db st)), st' d')
         | None => (Thrown, st' (db st))
         end.

(** ** Requests and answers *)

(** [req.body]; an absent field is [None]. *)
Record Body := mkBody {
  grantPermissions : option (list string);
  revokePermissions : option (list string);
  permissionId : option Z;
  type : option string;
  permissionName : option string;
  permissionNames : option (list string)
}.

Definition empty_body : Body := mkBody None None None None None None.

Inductive Data :=
| PermissionList (rows : list Permission)
| UserView (userId : Z) (role : string)
    (effectivePermissions rolePermissions grantedPermissions revokedPermissions : list string)
| RoleView (roleId roleName : string) (permissions : list string) (userCount : Z).

(** [res.json({success: true, data})], [res.json({success: true, message})]
    and [res.status(code).json({message})]. *)
Inductive Response :=
| OkData (data : Data)
| OkMessage (message : string)
| Failure (status : Z) (message : string).

(** JavaScript truthiness of the optional fields. *)
Definition truthy_string (s : option string) : bool :=
  match s with Some x => negb (x =? "") | None => false end.

Definition truthy_id (i : option Z) : bool :=
  match i with Some x => negb (x =? 0)%Z | None => false end.

Definition present {A} (x : option (list A)) : bool :=
  match x with Some _ => true | None => false end.

Definition or_empty {A} (x : option (list A)) : list A :=
  match x with Some l => l | None => [] end.

(** [users[0]?.role || 'User'] *)
Definition role_or_default (rows : list string) : string :=
  match rows with
  | r :: _ => if r =? "" then "User" else r
  | [] => "User"
  end.

(** A JavaScript [Set] of strings keeps insertion order. *)
Definition set_add (s : list string) (x : string) : list string :=
  if mem x s then s else s ++ [x].

Definition set_delete (s : list string) (x : string) : list string :=
  filter (fun y => negb (y =? x)) s.

Definition new_Set (l : list string) : list string := fold_left set_add l [].

(** The body of [try]; [catch] answers 500. *)
Definition handle (m : Async Response) (faulty : nat -> bool) (d : DB)
  : Response * Session :=
  match m faulty (mkSession d []) with
  | (Returned r, s) => (r, s)
  | (Thrown, s) => (Failure 500 "Server error", s)
  end.

Definition getAllPermissions : Async Response :=
  rows <- pool_query SelectPermissions permissions ;;
  ret (OkData (PermissionList rows)).

Definition getUserPermissions (userId : Z) : Async Response :=
  rows <- pool_query (SelectUserRole userId) (roles_of_user userId) ;;
  let userRole := role_or_default rows in
  userPerms <- pool_query (SelectUserOverrides userId) (overrides_of_user userId) ;;
  rolePerms <- pool_query (SelectRoleNames userRole) (names_of_role userRole) ;;
  let grantedPermissions :=
    map fst (filter (fun up => snd up =? "grant") userPerms) in
  let revokedPermissions :=
    map fst (filter (fun up => snd up =? "revoke") userPerms) in
  let rolePermissions := rolePerms in
  let effectiveSet := new_Set rolePermissions in
  let effectiveSet := fold_left set_add grantedPermissions effectiveSet in
  let effectiveSet := fold_left set_delete revokedPermissions effectiveSet in
  ret (OkData (UserView userId userRole effectiveSet
                 rolePermissions grantedPermissions revokedPermissions)).

(** One half of the bulk branch: look the names up, write what was found. *)
Definition bulk_write (userId : Z) (names : list string) (ty : string) : Async unit :=
  if (0 <? length names)%nat then
    perms <- pool_query (SelectPermissionsIn names) (permissions_by_names names) ;;
    if (0 <? length perms)%nat then
      let values := map (fun p => mkUserPermission userId (perm_id p) ty) perms in
      pool_query (InsertUserPermissions values ty) (fun _ => tt)
    else ret tt
  else ret tt.

Definition updateUserPermission (userId : Z) (body : Body) : Async Response :=
  if present (grantPermissions body) || present (revokePermissions body) then
    let toGrant := or_empty (grantPermissions body) in
    let toRevoke := or_empty (revokePermissions body) in
    bulk_write userId toGrant "grant" ;;;
    bulk_write userId toRevoke "revoke" ;;;
    ret (OkMessage "User permissions updated")
  else
    let single (permissionId : option Z) : Async Response :=
      (if negb (truthy_string (type body)) then
         pool_query (DeleteUserPermission userId permissionId) (fun _ => tt)
       else
         let ty := match type body with Some t => t | None => "" end in
         pool_query (InsertUserPermission userId permissionId ty ty) (fun _ => tt)) ;;;
      ret (OkMessage "User permission updated") in
    if truthy_string (permissionName body) && negb (truthy_id (permissionId body)) then
      let name := match permissionName body with Some n => n | None => "" end in
      perms <- pool_query (SelectPermissionId name) (permission_ids_by_name name) ;;
      match perms with
      | i :: _ => single (Some i)
      | [] => ret (Failure 404 "Permission not found")
      end
    else single (permissionId body).

Definition with_type (body : Body) (t : string) : Body :=
  mkBody (grantPermissions body) (revokePermissions body) (permissionId body)
         (Some t) (permissionName body) (permissionNames body).

Definition grantUserPermission (userId : Z) (body : Body) : Async Response :=
  updateUserPermission userId (with_type body "grant").

Definition revokeUserPermission (userId : Z) (body : Body) : Async Response :=
  updateUserPermission userId (with_type body "revoke").

Definition resetUserPermissions (userId : Z) : Async Response :=
  pool_query (DeleteUserPermissions userId) (fun _ => tt) ;;;
  ret (OkMessage "User permissions reset").

Definition getRolePermissions (roleName : string) : Async Response :=
  rolePerms <- pool_query (SelectRoleNames roleName) (names_of_role roleName) ;;
  let permissionNames := rolePerms in
  ret (OkData (RoleView roleName roleName permissionNames 0)).

Definition updateRolePermissions (roleName : string) (body : Body) : Async Response :=
  pool_query (DeleteRolePermissions roleName) (fun _ => tt) ;;;
  (if (0 <? length (or_empty (permissionNames body)))%nat then
     let names := or_empty (permissionNames body) in
     perms <- pool_query (SelectPermissionsIn names) (permissions_by_names names) ;;
     if (0 <? length perms)%nat then
       let values := map (fun p => mkRolePermission roleName (perm_id p)) perms in
       pool_query (InsertRolePermissions values) (fun _ => tt)
     else ret tt
   else ret tt) ;;;
  ret (OkMessage "Role permissions updated").

(** Storage that never fails. *)
Definition reliable : nat -> bool := fun _ => false.

(** The database a handler leaves, and its answer, when storage is reliable. *)
Definition after (m : Async Response) (d : DB) : DB := db (snd (handle m reliable d)).
Definition answer (m : Async Response) (d : DB) : Response := fst (handle m reliable d).

(** ** What the claims speak about *)

(** The override rows of one (userId, permissionId) pair. *)
Definition has_key (u p : Z) (r : UserPermission) : bool :=
  (up_userId r =? u)%Z && (up_permissionId r =? p)%Z.

Definition rows_of (u p : Z) (tbl : list UserPermission) : list UserPermission :=
  filter (has_key u p) tbl.

Definition one_row_per_pair (tbl : list UserPermission) : Prop :=
  forall u p, (length (rows_of u p tbl) <= 1)%nat.

(** [role] confers the permission named [p]: a [role_permissions] row of
    the role points at a catalog entry of that name. *)
Definition role_confers (d : DB) (role p : string) : Prop :=
  exists rp perm,
    In rp (role_permissions d) /\ rp_role rp = role /\
    In perm (permissions d) /\ perm_id perm = rp_permissionId rp /\ perm_name perm = p.

(** The user has an override of type [ty] on the permission named [p]. *)
Definition overridden (d : DB) (userId : Z) (ty p : string) : Prop :=
  exists up perm,
    In up (user_permissions d) /\ up_userId up = userId /\ up_type up = ty /\
    In perm (permissions d) /\ perm_id perm = up_permissionId up /\ perm_name perm = p.

(** The role column of the first [users] row of the identifier, if any. *)
Definition stored_role (d : DB) (userId : Z) : option string :=
  option_map user_role (find (fun u => (user_id u =? userId)%Z) (users d)).

(** The name is in the Catalog. *)
Definition in_catalog (d : DB) (name : string) : Prop :=
  exists perm, In perm (permissions d) /\ perm_name perm = name.

(** The rows a bulk half writes, and the database it leaves. *)
Definition bulk_rows (userId : Z) (names : list string) (ty : string) (d : DB)
  : list UserPermission :=
  map (fun p => mkUserPermission userId (perm_id p) ty) (permissions_by_names names d).

Definition bulk_written (userId : Z) (names : list string) (ty : string) (d : DB) : DB :=
  with_user_permissions d (upsert_all (bulk_rows userId names ty d) ty (user_permissions d)).

(** The rows a role replace inserts, and the two databases it goes through. *)
Definition role_cleared (role : string) (d : DB) : DB :=
  with_role_permissions d (filter (fun r => negb (rp_role r =? role)) (role_permissions d)).

Definition role_rows (role : string) (names : list string) (d : DB) : list RolePermission :=
  map (fun p => mkRolePermission role (perm_id p)) (permissions_by_names names d).

Definition role_replaced (role : string) (names : list string) (d : DB) : DB :=
  with_role_permissions (role_cleared role d)
    (role_permissions (role_cleared role d) ++ role_rows role names d).

(** A sequence of override calls, each with the storage failures it meets. *)
Inductive Call :=
| Update (userId : Z) (body : Body)
| Grant (userId : Z) (body : Body)
| Revoke (userId : Z) (body : Body)
| Reset (userId : Z).

Definition perform (c : Call) : Async Response :=
  match c with
  | Update u b => updateUserPermission u b
  | Grant u b => grantUserPermission u b
  | Revoke u b => revokeUserPermission u b
  | Reset u => resetUserPermissions u
  end.

Fixpoint run_calls (cs : list (Call * (nat -> bool))) (d : DB) : DB :=
  match cs with
  | [] => d
  | (c, faulty) :: rest => run_calls rest (db (snd (handle (perform c) faulty d)))
  end.

(** The databases that other requests can see while a request runs: one
    after each statement of its log that took effect. *)
Fixpoint visible (d : DB) (stmts : list Stmt) : list DB :=
  match stmts with
  | [] => []
  | s :: rest =>
      match apply_stmt s d with
      | Some d' => d' :: visible d' rest
      | None => visible d rest
      end
  end.

(** The effective set of an answer of [getUserPermissions]. *)
Definition effective_of (r : Response) : list string :=
  match r with
  | OkData (UserView _ _ e _ _ _) => e
  | _ => []
  end.

(** A request is a bulk update when either list is present. *)
Definition is_bulk (body : Body) : bool :=
  present (grantPermissions body) || present (revokePermissions body).

(** A computation keeps [I] when the database it leaves satisfies [I]
    whenever the one it started from does, whatever fails on the way. *)
Definition preserves (I : DB -> Prop) {A} (m : Async A) : Prop :=
  forall faulty s, I (db s) -> I (db (snd (m faulty s))).

(** [getUserPermissions] answers a view whose effective list lacks [p]. *)
Definition resolves_without (d : DB) (userId : Z) (p : string) : Prop :=
  exists role eff rolePerms granted revoked,
    answer (getUserPermissions userId) d =
      OkData (UserView userId role eff rolePerms granted revoked) /\
    ~ In p eff.

(** The single-update bodies that name a permission, or give its identifier. *)
Definition by_name (p : string) : Body := mkBody None None None None (Some p) None.
Definition by_id (i : Z) : Body := mkBody None None (Some i) None None None.



(** Storage whose [n]-th call fails. *)
Definition fails_at (n : nat) : nat -> bool := fun k => Nat.eqb k n.

(** ** Sample data *)

Definition sample_db : DB :=
  mkDB [mkUser 7 "Instructor"]
       [mkPermission 1 "create_quiz"; mkPermission 2 "view_students";
        mkPermission 3 "edit_syllabus"]
       [mkRolePermission "Instructor" 1; mkRolePermission "Instructor" 2]
       [].

Definition sample_bulk : Body :=
  mkBody (Some ["edit_syllabus"]) (Some ["view_students"]) None None None None.

Definition sample_replace : Body :=
  mkBody None None None None None (Some ["edit_syllabus"; "grade_exams"]).

Definition sample_overridden : DB :=
  with_user_permissions sample_db
    [mkUserPermission 7 3 "grant"; mkUserPermission 7 2 "revoke"].

Definition sample_both : Body :=
  mkBody (Some ["view_students"]) (Some ["view_students"]) None None None None.


Definition sample_calls : list (Call * (nat -> bool)) :=
  [(Update 7 sample_both, reliable);
   (Grant 7 (by_name "view_students"), reliable);
   (Update 7 sample_bulk, fails_at 3);
   (Revoke 8 (by_id 3), reliable);
   (Reset 8, fails_at 0)].

(** ** The legacy branch, statement by statement *)

(** The permission identifier the legacy branch works on: [None] when the
    name is looked up and not found (the 404), else the identifier sent to
    the database, NULL ([Some None]) when the body has none. *)
Definition single_target (d : DB) (body : Body) : option (option Z) :=
  if truthy_string (permissionName body) && negb (truthy_id (permissionId body)) then
    match permission_ids_by_name
            (match permissionName body with Some n => n | None => "" end) d with
    | i :: _ => Some (Some i)
    | [] => None
    end
  else Some (permissionId body).

(** The one write of the legacy branch on a target. *)
Definition single_stmt (userId : Z) (body : Body) (target : option Z) : Stmt :=
  if negb (truthy_string (type body)) then DeleteUserPermission userId target
  else
    let ty := match type body with Some t => t | None => "" end in
    InsertUserPermission userId target ty ty.

(** The database the legacy branch leaves when nothing fails. *)
Definition single_written (userId : Z) (body : Body) (d : DB) : DB :=
  match single_target d body with
  | Some target =>
      match apply_stmt (single_stmt userId body target) d with
      | Some d' => d'
      | None => d
      end
  | None => d
  end.

(** The body without its legacy fields, and without its name. *)
Definition bulk_only (body : Body) : Body :=
  mkBody (grantPermissions body) (revokePermissions body) None None None None.

Definition without_name (body : Body) : Body :=
  mkBody (grantPermissions body) (revokePermissions body) (permissionId body)
         (type body) None (permissionNames body).

(** The override rows of one user, and the database with another
    [users] table. *)
Definition rows_of_user (u : Z) (tbl : list UserPermission) : list UserPermission :=
  filter (fun r => (up_userId r =? u)%Z) tbl.

(** Two databases agree on everything but the override rows. *)
Definition same_but_overrides (d d' : DB) : Prop :=
  users d' = users d /\ permissions d' = permissions d /\
  role_permissions d' = role_permissions d.

(** Two databases agree on everything but the role rows. *)
Definition same_but_roles (d d' : DB) : Prop :=
  users d' = users d /\ permissions d' = permissions d /\
  user_permissions d' = user_permissions d.

(** The Catalog has one entry per identifier and per name. *)
Definition catalog_keyed (d : DB) : Prop :=
  NoDup (map perm_id (permissions d)) /\ NoDup (map perm_name (permissions d)).

(** The effective list of a user, as [getUserPermissions] answers it. *)
Definition effective (d : DB) (userId : Z) : list string :=
  effective_of (answer (getUserPermissions userId) d).

(** The user a call is about. *)
Definition call_user (c : Call) : Z :=
  match c with
  | Update u _ | Grant u _ | Revoke u _ | Reset u => u
  end.

Definition sample_mixed : Body :=
  mkBody None (Some ["view_students"]) (Some 1%Z) (Some "grant") (Some "create_quiz") None.

Definition sample_id_and_name : Body :=
  mkBody None None (Some 3%Z) (Some "grant") (Some "grade_exams") None.

Definition sample_empty_lists : Body :=
  mkBody (Some []) None (Some 1%Z) (Some "grant") None None.

(** The row [x] after an upsert of [values] into a table that already has
    all their pairs: its type is overwritten when its pair is among them. *)
Definition retag (values : list UserPermission) (t : string) (x : UserPermission)
  : UserPermission :=
  if existsb (same_key x) values then set_type x t else x.

(** The database without the override rows and role rows that point at no
    Catalog entry. *)
Definition points_at_catalog (d : DB) (permissionId : Z) : bool :=
  existsb (fun q => (permissionId =? perm_id q)%Z) (permissions d).

Definition without_dangling (d : DB) : DB :=
  mkDB (users d) (permissions d)
       (filter (fun rp => points_at_catalog d (rp_permissionId rp)) (role_permissions d))
       (filter (fun up => points_at_catalog d (up_permissionId up)) (user_permissions d)).

Definition sample_dangling : DB :=
  mkDB (users sample_db) (permissions sample_db)
       (mkRolePermission "Instructor" 9 :: role_permissions sample_db)
       [mkUserPermission 7 8 "grant"; mkUserPermission 7 2 "revoke"].

Definition sample_unknown_replace : Body :=
  mkBody None None None None None (Some ["grade_exams"]).

Definition sample_swap : Body :=
  mkBody (Some ["view_students"]) (Some ["edit_syllabus"]) None None None None.

(** ** Lists, sets and keys *)

Lemma mem_In (x : string) (l : list string) : mem x l = true <-> In x l.
Proof.
  unfold mem. rewrite existsb_exists. split.
  - intros [y [Hy E]]. apply String.eqb_eq in E. now subst.
  - intros H. exists x. split; [assumption | apply String.eqb_refl].
Qed.

Lemma mem_false (x : string) (l : list string) : mem x l = false <-> ~ In x l.
Proof.
  rewrite <- mem_In. destruct (mem x l); intuition congruence.
Qed.

Lemma set_add_In (s : list string) (x y : string) :
  In y (set_add s x) <-> In y s \/ y = x.
Proof.
  unfold set_add. destruct (mem x s) eqn:E.
  - apply mem_In in E. split; [tauto | intros [H | ->]; assumption].
  - rewrite in_app_iff. simpl. intuition.
Qed.

Lemma set_add_NoDup (s : list string) (x : string) : NoDup s -> NoDup (set_add s x).
Proof.
  intros H. unfold set_add. destruct (mem x s) eqn:E; [assumption |].
  apply mem_false in E. apply NoDup_app; [assumption | | ].
  - constructor; [simpl; tauto | constructor].
  - intros y Hy [<- | []]. exact (E Hy).
Qed.

Lemma fold_set_add_In (l s : list string) (y : string) :
  In y (fold_left set_add l s) <-> In y s \/ In y l.
Proof.
  revert s. induction l as [| x l IH]; intros s; simpl.
  - tauto.
  - rewrite IH, set_add_In. intuition.
Qed.

Lemma fold_set_add_NoDup (l s : list string) : NoDup s -> NoDup (fold_left set_add l s).
Proof.
  revert s. induction l as [| x l IH]; intros s H; simpl; [assumption |].
  apply IH, set_add_NoDup, H.
Qed.

Lemma set_delete_In (s : list string) (x y : string) :
  In y (set_delete s x) <-> In y s /\ y <> x.
Proof.
  unfold set_delete. rewrite filter_In, negb_true_iff.
  destruct (String.eqb_spec y x); intuition congruence.
Qed.

Lemma fold_set_delete_In (l s : list string) (y : string) :
  In y (fold_left set_delete l s) <-> In y s /\ ~ In y l.
Proof.
  revert s. induction l as [| x l IH]; intros s; simpl.
  - tauto.
  - rewrite IH, set_delete_In. intuition.
Qed.

Lemma fold_set_delete_NoDup (l s : list string) :
  NoDup s -> NoDup (fold_left set_delete l s).
Proof.
  revert s. induction l as [| x l IH]; intros s H; simpl; [assumption |].
  apply IH. unfold set_delete. now apply NoDup_filter.
Qed.

Lemma new_Set_In (l : list string) (y : string) : In y (new_Set l) <-> In y l.
Proof. unfold new_Set. rewrite fold_set_add_In. simpl. tauto. Qed.

Lemma new_Set_NoDup (l : list string) : NoDup (new_Set l).
Proof. apply fold_set_add_NoDup. constructor. Qed.

Lemma fold_set_add_fresh (l s : list string) :
  NoDup (s ++ l) -> fold_left set_add l s = s ++ l.
Proof.
  revert s. induction l as [| x l IH]; intros s N; simpl.
  - now rewrite app_nil_r.
  - assert (Hx : mem x s = false).
    { apply mem_false. intros Hin. apply NoDup_remove_2 in N. apply N.
      apply in_or_app. now left. }
    unfold set_add at 2. rewrite Hx.
    rewrite IH; rewrite <- app_assoc; [reflexivity | exact N].
Qed.

Lemma new_Set_of_NoDup (l : list string) : NoDup l -> new_Set l = l.
Proof. intros N. unfold new_Set. now rewrite fold_set_add_fresh. Qed.

Lemma with_user_permissions_same (d : DB) : with_user_permissions d (user_permissions d) = d.
Proof. now destruct d. Qed.

Lemma with_role_permissions_same (d : DB) : with_role_permissions d (role_permissions d) = d.
Proof. now destruct d. Qed.

(** ** The joins *)

Lemma joined_In (i : Z) (d : DB) (perm : Permission) :
  In perm (joined i d) <-> In perm (permissions d) /\ perm_id perm = i.
Proof.
  unfold joined. rewrite filter_In, Z.eqb_eq. intuition.
Qed.

Lemma names_of_role_In (d : DB) (role p : string) :
  In p (names_of_role role d) <-> role_confers d role p.
Proof.
  unfold names_of_role, role_confers. rewrite in_flat_map. split.
  - intros [rp [Hrp Hp]]. apply filter_In in Hrp as [Hin E].
    apply String.eqb_eq in E. apply in_map_iff in Hp as [perm [En Hj]].
    apply joined_In in Hj as [Hperm Hid]. now exists rp, perm.
  - intros [rp [perm (Hin & E & Hperm & Hid & En)]]. exists rp. split.
    + apply filter_In. split; [assumption | now apply String.eqb_eq].
    + apply in_map_iff. exists perm. split; [assumption | now apply joined_In].
Qed.

Lemma overrides_of_user_In (d : DB) (u : Z) (ty p : string) :
  In (p, ty) (overrides_of_user u d) <-> overridden d u ty p.
Proof.
  unfold overrides_of_user, overridden. rewrite in_flat_map. split.
  - intros [up [Hup Hp]]. apply filter_In in Hup as [Hin E].
    apply Z.eqb_eq in E. apply in_map_iff in Hp as [perm [En Hj]].
    apply joined_In in Hj as [Hperm Hid]. inversion En; subst.
    now exists up, perm.
  - intros [up [perm (Hin & E & Ety & Hperm & Hid & En)]]. exists up. split.
    + apply filter_In. split; [assumption | now apply Z.eqb_eq].
    + apply in_map_iff. exists perm. split; [now subst | now apply joined_In].
Qed.

Lemma names_of_type_In (ty p : string) (rows : list (string * string)) :
  In p (map fst (filter (fun up => snd up =? ty) rows)) <-> In (p, ty) rows.
Proof.
  rewrite in_map_iff. split.
  - intros [[n t] [E H]]. apply filter_In in H as [H Et]. simpl in *.
    apply String.eqb_eq in Et. now subst.
  - intros H. exists (p, ty). split; [reflexivity |].
    apply filter_In. split; [assumption | apply String.eqb_refl].
Qed.

Lemma names_of_role_in_catalog (d : DB) (role p : string) :
  role_confers d role p -> in_catalog d p.
Proof. intros [rp [perm H]]. exists perm. tauto. Qed.

Lemma overridden_in_catalog (d : DB) (u : Z) (ty p : string) :
  overridden d u ty p -> in_catalog d p.
Proof. intros [up [perm H]]. exists perm. tauto. Qed.

Lemma role_or_default_stored (d : DB) (u : Z) :
  role_or_default (roles_of_user u d) =
  match stored_role d u with
  | Some r => if r =? "" then "User" else r
  | None => "User"
  end.
Proof.
  unfold roles_of_user, stored_role. induction (users d) as [| x l IH]; simpl.
  - reflexivity.
  - destruct (user_id x =? u)%Z; simpl; [reflexivity | exact IH].
Qed.

(** ** Running the read handlers *)

Lemma getUserPermissions_run (d : DB) (u : Z) :
  let role := role_or_default (roles_of_user u d) in
  let granted := map fst (filter (fun up => snd up =? "grant") (overrides_of_user u d)) in
  let revoked := map fst (filter (fun up => snd up =? "revoke") (overrides_of_user u d)) in
  handle (getUserPermissions u) reliable d =
  (OkData (UserView u role
             (fold_left set_delete revoked
                (fold_left set_add granted (new_Set (names_of_role role d))))
             (names_of_role role d) granted revoked),
   mkSession d [SelectUserRole u; SelectUserOverrides u; SelectRoleNames role]).
Proof. reflexivity. Qed.

Lemma effective_In (d : DB) (u : Z) (p : string) :
  In p (effective_of (answer (getUserPermissions u) d)) <->
  (role_confers d (role_or_default (roles_of_user u d)) p \/ overridden d u "grant" p) /\
  ~ overridden d u "revoke" p.
Proof.
  unfold answer. rewrite getUserPermissions_run. simpl.
  rewrite fold_set_delete_In, fold_set_add_In, new_Set_In.
  rewrite !names_of_type_In, !overrides_of_user_In, names_of_role_In. tauto.
Qed.

Lemma getRolePermissions_run (d : DB) (roleName : string) :
  handle (getRolePermissions roleName) reliable d =
  (OkData (RoleView roleName roleName (names_of_role roleName d) 0),
   mkSession d [SelectRoleNames roleName]).
Proof. reflexivity. Qed.

(** ** The scenarios of the specification *)

Example instructor_without_overrides :
  answer (getUserPermissions 7) sample_db =
  OkData (UserView 7 "Instructor" ["create_quiz"; "view_students"]
            ["create_quiz"; "view_students"] [] []).
Proof. reflexivity. Qed.

Example instructor_after_bulk_update :
  answer (getUserPermissions 7) (after (updateUserPermission 7 sample_bulk) sample_db) =
  OkData (UserView 7 "Instructor" ["create_quiz"; "edit_syllabus"]
            ["create_quiz"; "view_students"] ["edit_syllabus"] ["view_students"]).
Proof. reflexivity. Qed.

Example single_reset_without_override :
  handle (updateUserPermission 7 (by_name "create_quiz")) reliable sample_db =
  (OkMessage "User permission updated",
   mkSession sample_db [SelectPermissionId "create_quiz"; DeleteUserPermission 7 (Some 1%Z)]).
Proof. reflexivity. Qed.

Example single_reset_of_override :
  user_permissions (after (updateUserPermission 7 (by_name "view_students")) sample_overridden) =
  [mkUserPermission 7 3 "grant"].
Proof. reflexivity. Qed.

Example instructor_after_empty_replace :
  answer (getUserPermissions 7)
    (after (updateRolePermissions "Instructor" (mkBody None None None None None (Some [])))
       sample_db) =
  OkData (UserView 7 "Instructor" [] [] [] []).
Proof. reflexivity. Qed.

Example unknown_user_defaults :
  answer (getUserPermissions 9) sample_db = OkData (UserView 9 "User" [] [] [] []).
Proof. reflexivity. Qed.

Example revoke_outside_baseline :
  effective_of (answer (getUserPermissions 7)
                  (after (revokeUserPermission 7 (by_name "edit_syllabus")) sample_db)) =
  effective_of (answer (getUserPermissions 7) sample_db).
Proof. reflexivity. Qed.

(** ** The resolver *)

(** C1: on reliable storage [getUserPermissions] answers, for every user
    identifier, the four views together: the names the role confers, the
    names with a grant override, the names with a revoke override, and an
    effective list that holds exactly the names of (role ∪ granted) minus
    revoked, each once.  The role is "User" when no [users] row carries the
    identifier, and the stored role whenever that is not empty; nothing is
    written. *)
Theorem getUserPermissions_effective (d : DB) (userId : Z) :
  exists role eff rolePerms granted revoked,
    handle (getUserPermissions userId) reliable d =
      (OkData (UserView userId role eff rolePerms granted revoked),
       mkSession d [SelectUserRole userId; SelectUserOverrides userId;
                    SelectRoleNames role]) /\
    (forall p, In p rolePerms <-> role_confers d role p) /\
    (forall p, In p granted <-> overridden d userId "grant" p) /\
    (forall p, In p revoked <-> overridden d userId "revoke" p) /\
    (forall p, In p eff <-> (In p rolePerms \/ In p granted) /\ ~ In p revoked) /\
    NoDup eff /\
    (stored_role d userId = None -> role = "User") /\
    (forall r, stored_role d userId = Some r -> r <> "" -> role = r).
Proof.
  do 5 eexists. split; [apply getUserPermissions_run |].
  repeat split.
  - apply names_of_role_In.
  - apply names_of_role_In.
  - rewrite names_of_type_In. apply overrides_of_user_In.
  - rewrite names_of_type_In. apply overrides_of_user_In.
  - rewrite names_of_type_In. apply overrides_of_user_In.
  - rewrite names_of_type_In. apply overrides_of_user_In.
  - rewrite fold_set_delete_In, fold_set_add_In, new_Set_In in H. tauto.
  - rewrite fold_set_delete_In, fold_set_add_In, new_Set_In in H. tauto.
  - intros [H1 H2]. rewrite fold_set_delete_In, fold_set_add_In, new_Set_In. tauto.
  - apply fold_set_delete_NoDup, fold_set_add_NoDup, new_Set_NoDup.
  - intros H. rewrite role_or_default_stored, H. reflexivity.
  - intros r H Hr. rewrite role_or_default_stored, H.
    destruct (String.eqb_spec r ""); [contradiction | reflexivity].
Qed.

(** ** Upserts, key by key *)

Lemma has_key_set_type (u p : Z) (r : UserPermission) (t : string) :
  has_key u p (set_type r t) = has_key u p r.
Proof. reflexivity. Qed.

Lemma same_key_has_key (x r : UserPermission) (u p : Z) :
  has_key u p r = true -> same_key x r = has_key u p x.
Proof.
  unfold has_key, same_key. intros H.
  apply andb_true_iff in H as [Hu Hp]. apply Z.eqb_eq in Hu, Hp. now subst.
Qed.

Lemma same_key_other (x r : UserPermission) (u p : Z) :
  same_key x r = true -> has_key u p r = false -> has_key u p x = false.
Proof.
  unfold has_key, same_key. intros H.
  apply andb_true_iff in H as [Hu Hp]. apply Z.eqb_eq in Hu, Hp.
  now rewrite Hu, Hp.
Qed.

Lemma rows_of_upsert_other (u p : Z) (r : UserPermission) (t : string)
  (tbl : list UserPermission) :
  has_key u p r = false -> rows_of u p (upsert r t tbl) = rows_of u p tbl.
Proof.
  intros H. induction tbl as [| x tbl IH]; simpl.
  - now rewrite H.
  - destruct (same_key x r) eqn:E; simpl.
    + rewrite has_key_set_type, (same_key_other _ _ _ _ E H). reflexivity.
    + now rewrite IH.
Qed.

Lemma rows_of_upsert_same (u p : Z) (r : UserPermission) (t : string)
  (tbl : list UserPermission) :
  has_key u p r = true ->
  rows_of u p (upsert r t tbl) =
  match rows_of u p tbl with
  | [] => [r]
  | x :: rest => set_type x t :: rest
  end.
Proof.
  intros H. induction tbl as [| x tbl IH]; simpl.
  - now rewrite H.
  - rewrite (same_key_has_key x r u p H).
    destruct (has_key u p x) eqn:E; simpl.
    + now rewrite has_key_set_type, E.
    + now rewrite E.
Qed.

Lemma upsert_length_rows (u p : Z) (r : UserPermission) (t : string)
  (tbl : list UserPermission) :
  (length (rows_of u p tbl) <= 1 -> length (rows_of u p (upsert r t tbl)) <= 1)%nat.
Proof.
  destruct (has_key u p r) eqn:E.
  - rewrite (rows_of_upsert_same _ _ _ _ _ E).
    destruct (rows_of u p tbl); simpl; lia.
  - now rewrite (rows_of_upsert_other _ _ _ _ _ E).
Qed.

Lemma upsert_one_row (r : UserPermission) (t : string) (tbl : list UserPermission) :
  one_row_per_pair tbl -> one_row_per_pair (upsert r t tbl).
Proof. intros H u p. apply upsert_length_rows, H. Qed.

Lemma upsert_all_one_row (values : list UserPermission) (t : string)
  (tbl : list UserPermission) :
  one_row_per_pair tbl -> one_row_per_pair (upsert_all values t tbl).
Proof.
  unfold upsert_all. revert tbl.
  induction values as [| v values IH]; intros tbl H; simpl; [assumption |].
  apply IH, upsert_one_row, H.
Qed.

Lemma filter_length_le {A} (f : A -> bool) (l : list A) :
  (length (filter f l) <= length l)%nat.
Proof.
  induction l as [| x l IH]; simpl; [lia |]. destruct (f x); simpl; lia.
Qed.

Lemma filter_swap {A} (f g : A -> bool) (l : list A) :
  filter f (filter g l) = filter g (filter f l).
Proof.
  induction l as [| x l IH]; simpl; [reflexivity |].
  destruct (f x) eqn:Ef, (g x) eqn:Eg; simpl; rewrite ?Ef, ?Eg, IH; reflexivity.
Qed.

Lemma filter_one_row (f : UserPermission -> bool) (tbl : list UserPermission) :
  one_row_per_pair tbl -> one_row_per_pair (filter f tbl).
Proof.
  intros H u p. unfold rows_of. rewrite filter_swap.
  eapply Nat.le_trans; [apply filter_length_le | apply H].
Qed.

Lemma upsert_length (r : UserPermission) (t : string) (tbl : list UserPermission) :
  length (upsert r t tbl) =
  match rows_of (up_userId r) (up_permissionId r) tbl with
  | [] => S (length tbl)
  | _ => length tbl
  end.
Proof.
  assert (K : has_key (up_userId r) (up_permissionId r) r = true).
  { unfold has_key. now rewrite !Z.eqb_refl. }
  induction tbl as [| x tbl IH]; simpl; [reflexivity |].
  rewrite <- (same_key_has_key x r _ _ K).
  destruct (same_key x r); simpl; [reflexivity |].
  rewrite IH. now destruct (rows_of (up_userId r) (up_permissionId r) tbl).
Qed.

(** A row of the written type stays; any other row stays or changes type. *)
Lemma upsert_keeps_typed (r y : UserPermission) (t : string) (tbl : list UserPermission) :
  In y tbl -> up_type y = t -> In y (upsert r t tbl).
Proof.
  intros Hin Ht. induction tbl as [| x tbl IH]; simpl in *; [contradiction |].
  destruct (same_key x r).
  - destruct Hin as [-> | Hin]; [left | now right].
    destruct y; simpl in *; now subst.
  - destruct Hin as [-> | Hin]; [now left | right; auto].
Qed.

Lemma upsert_keeps_row (r y : UserPermission) (t : string) (tbl : list UserPermission) :
  In y tbl -> In y (upsert r t tbl) \/ In (set_type y t) (upsert r t tbl).
Proof.
  intros Hin. induction tbl as [| x tbl IH]; simpl in *; [contradiction |].
  destruct (same_key x r).
  - destruct Hin as [-> | Hin]; [right; now left | left; now right].
  - destruct Hin as [-> | Hin]; [left; now left |].
    destruct (IH Hin); [left | right]; now right.
Qed.

Lemma upsert_writes (r : UserPermission) (t : string) (tbl : list UserPermission) :
  up_type r = t -> In r (upsert r t tbl).
Proof.
  intros Ht. induction tbl as [| x tbl IH]; simpl; [now left |].
  destruct (same_key x r) eqn:E; [left | now right].
  unfold same_key in E. apply andb_true_iff in E as [Eu Ep].
  apply Z.eqb_eq in Eu, Ep. destruct x, r; simpl in *; now subst.
Qed.

Lemma upsert_all_keeps_typed (values : list UserPermission) (y : UserPermission)
  (t : string) (tbl : list UserPermission) :
  In y tbl -> up_type y = t -> In y (upsert_all values t tbl).
Proof.
  unfold upsert_all. revert tbl.
  induction values as [| v values IH]; intros tbl Hin Ht; simpl; [assumption |].
  apply IH; [now apply upsert_keeps_typed | assumption].
Qed.

Lemma upsert_all_writes (values : list UserPermission) (t : string)
  (tbl : list UserPermission) (v : UserPermission) :
  In v values -> up_type v = t -> In v (upsert_all values t tbl).
Proof.
  unfold upsert_all. revert tbl.
  induction values as [| w values IH]; intros tbl Hin Ht; simpl in *; [contradiction |].
  destruct Hin as [-> | Hin].
  - apply (upsert_all_keeps_typed values v t); [now apply upsert_writes | assumption].
  - now apply IH.
Qed.

Lemma upsert_all_keeps_row (values : list UserPermission) (y : UserPermission)
  (t : string) (tbl : list UserPermission) :
  In y tbl -> In y (upsert_all values t tbl) \/ In (set_type y t) (upsert_all values t tbl).
Proof.
  unfold upsert_all. revert tbl.
  induction values as [| v values IH]; intros tbl Hin; simpl; [now left |].
  destruct (upsert_keeps_row v y t tbl Hin) as [H | H].
  - now apply IH.
  - right. apply (upsert_all_keeps_typed values (set_type y t) t); [assumption | reflexivity].
Qed.

Lemma rows_of_upsert_all_other (u p : Z) (values : list UserPermission) (t : string)
  (tbl : list UserPermission) :
  (forall v, In v values -> has_key u p v = false) ->
  rows_of u p (upsert_all values t tbl) = rows_of u p tbl.
Proof.
  unfold upsert_all. revert tbl.
  induction values as [| v values IH]; intros tbl H; simpl; [reflexivity |].
  rewrite IH; [| intros w Hw; apply H; now right].
  apply rows_of_upsert_other, H. now left.
Qed.

Lemma upsert_length_ge (r : UserPermission) (t : string) (tbl : list UserPermission) :
  (length tbl <= length (upsert r t tbl))%nat.
Proof.
  rewrite upsert_length.
  destruct (rows_of (up_userId r) (up_permissionId r) tbl); lia.
Qed.

Lemma upsert_all_length_ge (values : list UserPermission) (t : string)
  (tbl : list UserPermission) :
  (length tbl <= length (upsert_all values t tbl))%nat.
Proof.
  unfold upsert_all. revert tbl.
  induction values as [| v values IH]; intros tbl; simpl; [lia |].
  eapply Nat.le_trans; [apply upsert_length_ge | apply IH].
Qed.

(** ** Running the write handlers *)

Lemma permissions_by_names_nil (d : DB) : permissions_by_names [] d = [].
Proof.
  unfold permissions_by_names. induction (permissions d); simpl; auto.
Qed.

Lemma bulk_written_nil (u : Z) (names : list string) (ty : string) (d : DB) :
  permissions_by_names names d = [] -> bulk_written u names ty d = d.
Proof.
  intros H. unfold bulk_written, bulk_rows. rewrite H. simpl.
  apply with_user_permissions_same.
Qed.

Lemma bulk_write_cases (u : Z) (names : list string) (ty : string)
  (faulty : nat -> bool) (s : Session) :
  (fst (bulk_write u names ty faulty s) = Returned tt /\
   db (snd (bulk_write u names ty faulty s)) = bulk_written u names ty (db s)) \/
  (fst (bulk_write u names ty faulty s) = Thrown /\
   db (snd (bulk_write u names ty faulty s)) = db s).
Proof.
  unfold bulk_write, bind, pool_query, ret.
  destruct names as [| n names]; simpl.
  - left. split; [reflexivity |]. symmetry. apply bulk_written_nil, permissions_by_names_nil.
  - destruct (faulty (length (log s))); simpl; [now right |].
    destruct (permissions_by_names (n :: names) (db s)) as [| q perms] eqn:E; simpl.
    + left. split; [reflexivity |]. symmetry. now apply bulk_written_nil.
    + destruct (faulty _); simpl; [now right |].
      left. split; [reflexivity |]. unfold bulk_written, bulk_rows. now rewrite E.
Qed.

Lemma bulk_write_reliable (u : Z) (names : list string) (ty : string) (s : Session) :
  fst (bulk_write u names ty reliable s) = Returned tt.
Proof.
  unfold bulk_write, bind, pool_query, ret, reliable.
  destruct names as [| n names]; simpl; [reflexivity |].
  destruct (permissions_by_names (n :: names) (db s)); reflexivity.
Qed.

Lemma update_bulk_cases (faulty : nat -> bool) (d : DB) (u : Z) (body : Body) :
  is_bulk body = true ->
  let r := handle (updateUserPermission u body) faulty d in
  let granted := bulk_written u (or_empty (grantPermissions body)) "grant" d in
  (fst r = OkMessage "User permissions updated" /\
   db (snd r) = bulk_written u (or_empty (revokePermissions body)) "revoke" granted) \/
  (fst r = Failure 500 "Server error" /\ (db (snd r) = d \/ db (snd r) = granted)).
Proof.
  intros B. unfold is_bulk in B. unfold handle, updateUserPermission. rewrite B.
  cbv zeta. unfold bind.
  destruct (bulk_write_cases u (or_empty (grantPermissions body)) "grant" faulty
              (mkSession d [])) as [[R1 D1] | [R1 D1]];
    destruct (bulk_write u (or_empty (grantPermissions body)) "grant" faulty
                (mkSession d [])) as [o1 s1]; simpl in *; subst o1.
  - destruct (bulk_write_cases u (or_empty (revokePermissions body)) "revoke" faulty s1)
      as [[R2 D2] | [R2 D2]];
      destruct (bulk_write u (or_empty (revokePermissions body)) "revoke" faulty s1)
        as [o2 s2]; simpl in *; subst o2; simpl.
    + left. split; [reflexivity | congruence].
    + right. split; [reflexivity | right; congruence].
  - right. split; [reflexivity | now left].
Qed.

Lemma update_bulk_reliable (d : DB) (u : Z) (body : Body) :
  is_bulk body = true ->
  answer (updateUserPermission u body) d = OkMessage "User permissions updated" /\
  after (updateUserPermission u body) d =
  bulk_written u (or_empty (revokePermissions body)) "revoke"
    (bulk_written u (or_empty (grantPermissions body)) "grant" d).
Proof.
  intros B. unfold answer, after. unfold is_bulk in B.
  unfold handle, updateUserPermission. rewrite B. cbv zeta. unfold bind.
  pose proof (bulk_write_reliable u (or_empty (grantPermissions body)) "grant"
                (mkSession d [])) as R1.
  destruct (bulk_write_cases u (or_empty (grantPermissions body)) "grant" reliable
              (mkSession d [])) as [[_ D1] | [T1 _]]; [| congruence].
  destruct (bulk_write u (or_empty (grantPermissions body)) "grant" reliable
              (mkSession d [])) as [o1 s1]; simpl in *; subst o1.
  pose proof (bulk_write_reliable u (or_empty (revokePermissions body)) "revoke" s1) as R2.
  destruct (bulk_write_cases u (or_empty (revokePermissions body)) "revoke" reliable s1)
    as [[_ D2] | [T2 _]]; [| congruence].
  destruct (bulk_write u (or_empty (revokePermissions body)) "revoke" reliable s1)
    as [o2 s2]; simpl in *; subst o2. simpl. split; [reflexivity | congruence].
Qed.

Lemma role_replaced_nil (role : string) (names : list string) (d : DB) :
  permissions_by_names names d = [] -> role_replaced role names d = role_cleared role d.
Proof.
  intros H. unfold role_replaced, role_rows. rewrite H. simpl.
  rewrite app_nil_r. apply with_role_permissions_same.
Qed.

Lemma update_role_cases (faulty : nat -> bool) (d : DB) (role : string) (body : Body) :
  let r := handle (updateRolePermissions role body) faulty d in
  (fst r = OkMessage "Role permissions updated" /\
   db (snd r) = role_replaced role (or_empty (permissionNames body)) d) \/
  (fst r = Failure 500 "Server error" /\
   (db (snd r) = d \/ db (snd r) = role_cleared role d)).
Proof.
  unfold handle, updateRolePermissions, bind, pool_query, ret. simpl.
  destruct (faulty 0%nat); simpl; [right; split; [reflexivity | now left] |].
  fold (role_cleared role d).
  destruct (or_empty (permissionNames body)) as [| n names]; simpl.
  - left. split; [reflexivity |]. symmetry.
    apply role_replaced_nil, permissions_by_names_nil.
  - destruct (faulty 1%nat); simpl; [right; split; [reflexivity | now right] |].
    destruct (permissions_by_names (n :: names) (role_cleared role d))
      as [| q perms] eqn:E; simpl.
    + left. split; [reflexivity |]. symmetry. now apply role_replaced_nil.
    + destruct (faulty 2%nat); simpl; [right; split; [reflexivity | now right] |].
      left. split; [reflexivity |]. unfold role_replaced, role_rows.
      change (permissions_by_names (n :: names) d)
        with (permissions_by_names (n :: names) (role_cleared role d)).
      now rewrite E.
Qed.

Lemma update_role_reliable (d : DB) (role : string) (body : Body) :
  answer (updateRolePermissions role body) d = OkMessage "Role permissions updated" /\
  after (updateRolePermissions role body) d =
  role_replaced role (or_empty (permissionNames body)) d.
Proof.
  unfold answer, after, handle, updateRolePermissions, bind, pool_query, ret, reliable.
  simpl. fold (role_cleared role d).
  destruct (or_empty (permissionNames body)) as [| n names]; simpl.
  - split; [reflexivity |]. symmetry. apply role_replaced_nil, permissions_by_names_nil.
  - destruct (permissions_by_names (n :: names) (role_cleared role d))
      as [| q perms] eqn:E; simpl.
    + split; [reflexivity |]. symmetry. now apply role_replaced_nil.
    + split; [reflexivity |]. unfold role_replaced, role_rows.
      change (permissions_by_names (n :: names) d)
        with (permissions_by_names (n :: names) (role_cleared role d)).
      now rewrite E.
Qed.

(** ** Role policy *)

(** C10: whatever the database holds and whichever storage call fails,
    [getRolePermissions] answers either the 500 or a view whose [userCount]
    is 0; on reliable storage the view's permissions are exactly the names
    the role confers, and replacing the [users] table by any other leaves
    the answer as it is. *)
Theorem getRolePermissions_userCount_zero (faulty : nat -> bool) (d : DB)
  (roleName : string) :
  (fst (handle (getRolePermissions roleName) faulty d) = Failure 500 "Server error" \/
   exists names,
     fst (handle (getRolePermissions roleName) faulty d) =
     OkData (RoleView roleName roleName names 0)) /\
  (exists names,
     answer (getRolePermissions roleName) d = OkData (RoleView roleName roleName names 0) /\
     forall p, In p names <-> role_confers d roleName p) /\
  (forall us,
     answer (getRolePermissions roleName)
       (mkDB us (permissions d) (role_permissions d) (user_permissions d)) =
     answer (getRolePermissions roleName) d).
Proof.
  split; [| split].
  - unfold handle, getRolePermissions, bind, pool_query, ret. simpl.
    destruct (faulty 0%nat); simpl; [now left | right; eauto].
  - exists (names_of_role roleName d). split; [reflexivity |].
    intros p. apply names_of_role_In.
  - reflexivity.
Qed.

Lemma filter_none {A} (f : A -> bool) (l : list A) :
  (forall x, In x l -> f x = false) -> filter f l = [].
Proof.
  induction l as [| x l IH]; intros H; simpl; [reflexivity |].
  rewrite (H x (or_introl eq_refl)). apply IH. intros y Hy. apply H. now right.
Qed.

Lemma filter_all {A} (f : A -> bool) (l : list A) :
  (forall x, In x l -> f x = true) -> filter f l = l.
Proof.
  induction l as [| x l IH]; intros H; simpl; [reflexivity |].
  rewrite (H x (or_introl eq_refl)). f_equal. apply IH. intros y Hy. apply H. now right.
Qed.

Lemma filter_idem {A} (f : A -> bool) (l : list A) : filter f (filter f l) = filter f l.
Proof. apply filter_all. intros x H. now apply filter_In in H. Qed.

Lemma filter_negb_none {A} (f : A -> bool) (l : list A) :
  filter f (filter (fun x => negb (f x)) l) = [].
Proof.
  apply filter_none. intros x H. apply filter_In in H as [_ H].
  now apply negb_true_iff in H.
Qed.

Lemma unique_by {A} (f : A -> Z) (l : list A) (p : A) :
  NoDup (map f l) -> In p l -> filter (fun q => (f p =? f q)%Z) l = [p].
Proof.
  induction l as [| x l IH]; intros N H; simpl in *; [contradiction |].
  inversion N as [| y ys Hx N']; subst. destruct H as [-> | H].
  - rewrite Z.eqb_refl. f_equal. apply filter_none. intros q Hq.
    apply Z.eqb_neq. intros E. apply Hx. rewrite E. now apply in_map.
  - assert (E : (f p =? f x)%Z = false).
    { apply Z.eqb_neq. intros E. apply Hx. rewrite <- E. now apply in_map. }
    rewrite E. now apply IH.
Qed.

Lemma joined_unique (d : DB) (p : Permission) :
  NoDup (map perm_id (permissions d)) -> In p (permissions d) ->
  joined (perm_id p) d = [p].
Proof. apply unique_by. Qed.

Lemma role_rows_role (role : string) (names : list string) (d : DB) (rp : RolePermission) :
  In rp (role_rows role names d) -> rp_role rp = role.
Proof.
  unfold role_rows. intros H. apply in_map_iff in H as [q [<- _]]. reflexivity.
Qed.

Lemma role_replaced_rows (role : string) (names : list string) (d : DB) :
  filter (fun rp => rp_role rp =? role) (role_permissions (role_replaced role names d)) =
  role_rows role names d.
Proof.
  unfold role_replaced, role_cleared. simpl. rewrite filter_app, filter_negb_none. simpl.
  apply filter_all. intros rp H. apply role_rows_role in H. now apply String.eqb_eq.
Qed.

Lemma role_replaced_others (role : string) (names : list string) (d : DB) :
  filter (fun rp => negb (rp_role rp =? role)) (role_permissions (role_replaced role names d)) =
  filter (fun rp => negb (rp_role rp =? role)) (role_permissions d).
Proof.
  unfold role_replaced, role_cleared. simpl. rewrite filter_app, filter_idem.
  rewrite (filter_none _ (role_rows role names d)); [apply app_nil_r |].
  intros rp H. apply role_rows_role in H. apply negb_false_iff. now apply String.eqb_eq.
Qed.

Lemma role_replaced_idem (role : string) (names : list string) (d : DB) :
  role_replaced role names (role_replaced role names d) = role_replaced role names d.
Proof.
  unfold role_replaced at 1. unfold role_cleared.
  rewrite role_replaced_others. reflexivity.
Qed.

Lemma names_of_role_replaced (role : string) (names : list string) (d : DB) :
  NoDup (map perm_id (permissions d)) ->
  names_of_role role (role_replaced role names d) =
  map perm_name (permissions_by_names names d).
Proof.
  intros N. unfold names_of_role. rewrite role_replaced_rows.
  unfold role_rows. rewrite flat_map_concat_map, map_map. simpl.
  rewrite <- flat_map_concat_map.
  assert (K : forall l, (forall q, In q l -> In q (permissions d)) ->
              flat_map (fun q => map perm_name (joined (perm_id q) (role_replaced role names d))) l
              = map perm_name l).
  { induction l as [| q l IH]; intros Hl; simpl; [reflexivity |].
    change (joined (perm_id q) (role_replaced role names d)) with (joined (perm_id q) d).
    rewrite (joined_unique d q N (Hl q (or_introl eq_refl))). simpl. f_equal.
    apply IH. intros x Hx. apply Hl. now right. }
  apply K. intros q Hq. unfold permissions_by_names in Hq. now apply filter_In in Hq.
Qed.

Lemma permissions_by_names_In (names : list string) (d : DB) (p : string) :
  In p (map perm_name (permissions_by_names names d)) <-> In p names /\ in_catalog d p.
Proof.
  unfold permissions_by_names, in_catalog. rewrite in_map_iff. split.
  - intros [q [E H]]. apply filter_In in H as [Hq Hm]. apply mem_In in Hm. subst.
    split; [assumption | now exists q].
  - intros [Hn [q [Hq E]]]. exists q. split; [assumption |].
    apply filter_In. split; [assumption |]. apply mem_In. now rewrite E.
Qed.

(** C5: when permission identifiers are unique in the Catalog, replacing the
    permissions of a role by a list of names and then reading the role gives
    exactly the Catalog entries named in the list (the names of the list
    that are in the Catalog).  The replace succeeds, the rows the role holds
    afterwards are only the newly inserted ones, the rows of other roles are
    kept, and doing the same replace again changes nothing. *)
Theorem updateRolePermissions_then_get (d : DB) (role : string) (body : Body) :
  NoDup (map perm_id (permissions d)) ->
  let names := or_empty (permissionNames body) in
  let d' := after (updateRolePermissions role body) d in
  answer (updateRolePermissions role body) d = OkMessage "Role permissions updated" /\
  answer (getRolePermissions role) d' =
    OkData (RoleView role role (map perm_name (permissions_by_names names d)) 0) /\
  (forall p, In p (map perm_name (permissions_by_names names d)) <->
             In p names /\ in_catalog d p) /\
  filter (fun rp => rp_role rp =? role) (role_permissions d') = role_rows role names d /\
  filter (fun rp => negb (rp_role rp =? role)) (role_permissions d') =
    filter (fun rp => negb (rp_role rp =? role)) (role_permissions d) /\
  after (updateRolePermissions role body) d' = d'.
Proof.
  intros N names d'.
  destruct (update_role_reliable d role body) as [Ha Hd].
  assert (Ed : d' = role_replaced role names d) by exact Hd.
  split; [exact Ha |]. split; [| split; [| split; [| split]]].
  - unfold answer. rewrite getRolePermissions_run. simpl.
    rewrite Ed, names_of_role_replaced by assumption. reflexivity.
  - intros p. apply permissions_by_names_In.
  - rewrite Ed. apply role_replaced_rows.
  - rewrite Ed. apply role_replaced_others.
  - destruct (update_role_reliable d' role body) as [_ Hd'].
    rewrite Hd'. fold names. rewrite Ed. apply role_replaced_idem.
Qed.

(** ** Reset *)

Lemma resetUserPermissions_run (d : DB) (u : Z) :
  handle (resetUserPermissions u) reliable d =
  (OkMessage "User permissions reset",
   mkSession
     (with_user_permissions d
        (filter (fun r => negb (up_userId r =? u)%Z) (user_permissions d)))
     [DeleteUserPermissions u]).
Proof. reflexivity. Qed.

(** C6: on reliable storage [resetUserPermissions] always succeeds with the
    one DELETE; afterwards the user has no override row, the rows of other
    users are as before, a second reset changes nothing and succeeds too,
    and [getUserPermissions] answers empty granted and revoked lists and an
    effective list that is the role list without repetitions, holding the
    same names (the role list itself when that has no repetition). *)
Theorem resetUserPermissions_then_resolve (d : DB) (userId : Z) :
  let d' := after (resetUserPermissions userId) d in
  answer (resetUserPermissions userId) d = OkMessage "User permissions reset" /\
  filter (fun r => (up_userId r =? userId)%Z) (user_permissions d') = [] /\
  filter (fun r => negb (up_userId r =? userId)%Z) (user_permissions d') =
    filter (fun r => negb (up_userId r =? userId)%Z) (user_permissions d) /\
  after (resetUserPermissions userId) d' = d' /\
  answer (resetUserPermissions userId) d' = OkMessage "User permissions reset" /\
  exists role rolePerms,
    answer (getUserPermissions userId) d' =
      OkData (UserView userId role (new_Set rolePerms) rolePerms [] []) /\
    (forall p, In p rolePerms <-> role_confers d role p) /\
    (forall p, In p (new_Set rolePerms) <-> In p rolePerms) /\
    (NoDup rolePerms -> new_Set rolePerms = rolePerms).
Proof.
  intros d'.
  assert (Ed : d' = with_user_permissions d
                     (filter (fun r => negb (up_userId r =? userId)%Z) (user_permissions d)))
    by reflexivity.
  assert (E0 : filter (fun r => (up_userId r =? userId)%Z) (user_permissions d') = []).
  { rewrite Ed. simpl. apply (filter_negb_none (fun r => (up_userId r =? userId)%Z)). }
  split; [reflexivity |]. split; [exact E0 |]. split; [| split; [| split]].
  - rewrite Ed. simpl. apply filter_idem.
  - unfold after at 1. rewrite resetUserPermissions_run. simpl.
    rewrite Ed at 2. simpl. rewrite filter_idem. now rewrite Ed.
  - reflexivity.
  - exists (role_or_default (roles_of_user userId d')), 
      (names_of_role (role_or_default (roles_of_user userId d')) d').
    split; [| split; [| split]].
    + unfold answer. rewrite getUserPermissions_run. simpl.
      unfold overrides_of_user. rewrite E0. reflexivity.
    + intros p. rewrite names_of_role_In. reflexivity.
    + intros p. apply new_Set_In.
    + apply new_Set_of_NoDup.
Qed.

(** ** Invariants of the database across a request *)

Section Invariant.

Variable I : DB -> Prop.
Hypothesis I_stable : forall s d d', I d -> apply_stmt s d = Some d' -> I d'.

Lemma preserves_ret {A} (a : A) : preserves I (ret a).
Proof. intros faulty s H. exact H. Qed.

Lemma preserves_bind {A B} (m : Async A) (k : A -> Async B) :
  preserves I m -> (forall a, preserves I (k a)) -> preserves I (bind m k).
Proof.
  intros Hm Hk faulty s H. unfold bind.
  specialize (Hm faulty s H). destruct (m faulty s) as [[a |] s']; simpl in *.
  - now apply Hk.
  - exact Hm.
Qed.

Lemma preserves_pool_query {A} (s : Stmt) (rows : DB -> A) :
  preserves I (pool_query s rows).
Proof.
  intros faulty st H. unfold pool_query.
  destruct (faulty (length (log st))); simpl; [exact H |].
  destruct (apply_stmt s (db st)) as [d' |] eqn:E; simpl; [| exact H].
  exact (I_stable s (db st) d' H E).
Qed.

Ltac step :=
  match goal with
  | |- preserves _ (bind _ _) => apply preserves_bind; [| intros ?]
  | |- preserves _ (pool_query _ _) => apply preserves_pool_query
  | |- preserves _ (ret _) => apply preserves_ret
  | |- preserves _ (if ?b then _ else _) => destruct b
  | |- preserves _ (match ?x with _ => _ end) => destruct x
  end.

Lemma preserves_bulk_write (u : Z) (names : list string) (ty : string) :
  preserves I (bulk_write u names ty).
Proof. unfold bulk_write. repeat step. Qed.

Lemma preserves_updateUserPermission (u : Z) (body : Body) :
  preserves I (updateUserPermission u body).
Proof.
  unfold updateUserPermission.
  destruct (present (grantPermissions body) || present (revokePermissions body)).
  - cbv zeta. repeat (apply preserves_bulk_write || step).
  - cbv zeta. repeat step.
Qed.

Lemma preserves_perform (c : Call) : preserves I (perform c).
Proof.
  destruct c; simpl; try apply preserves_updateUserPermission.
  unfold resetUserPermissions. repeat step.
Qed.

Lemma preserves_handle (m : Async Response) (faulty : nat -> bool) (d : DB) :
  preserves I m -> I d -> I (db (snd (handle m faulty d))).
Proof.
  intros Hm H. unfold handle. specialize (Hm faulty (mkSession d []) H).
  destruct (m faulty (mkSession d [])) as [[r |] s]; exact Hm.
Qed.

Lemma preserves_run_calls (cs : list (Call * (nat -> bool))) (d : DB) :
  I d -> I (run_calls cs d).
Proof.
  revert d. induction cs as [| [c faulty] cs IH]; intros d H; simpl; [exact H |].
  apply IH, preserves_handle; [apply preserves_perform | exact H].
Qed.

End Invariant.

Lemma one_row_stable (s : Stmt) (d d' : DB) :
  one_row_per_pair (user_permissions d) -> apply_stmt s d = Some d' ->
  one_row_per_pair (user_permissions d').
Proof.
  intros H E.
  destruct s as [| | | | | | vs t | u [p |] ty t | u [p |] | u | r | vs];
    simpl in E; inversion E; subst; simpl; try assumption.
  - now apply upsert_all_one_row.
  - now apply upsert_one_row.
  - now apply filter_one_row.
  - now apply filter_one_row.
Qed.

Lemma set_type_set_type (r : UserPermission) (a b : string) :
  set_type (set_type r a) b = set_type r b.
Proof. reflexivity. Qed.

Lemma set_type_same (r : UserPermission) : set_type r (up_type r) = r.
Proof. now destruct r. Qed.

Lemma upsert_single_row (u p : Z) (old r : UserPermission) (t : string)
  (tbl : list UserPermission) :
  rows_of u p tbl = [old] ->
  exists ty, rows_of u p (upsert r t tbl) = [set_type old ty].
Proof.
  intros H. destruct (has_key u p r) eqn:E.
  - rewrite (rows_of_upsert_same _ _ _ _ _ E), H. now exists t.
  - rewrite (rows_of_upsert_other _ _ _ _ _ E), H. exists (up_type old).
    now rewrite set_type_same.
Qed.

Lemma upsert_all_single_row (u p : Z) (old : UserPermission) (values : list UserPermission)
  (t : string) (tbl : list UserPermission) :
  rows_of u p tbl = [old] ->
  exists ty, rows_of u p (upsert_all values t tbl) = [set_type old ty].
Proof.
  unfold upsert_all. revert tbl old.
  induction values as [| v values IH]; intros tbl old H; simpl.
  - exists (up_type old). now rewrite set_type_same.
  - destruct (upsert_single_row u p old v t tbl H) as [ty1 H1].
    destruct (IH _ _ H1) as [ty2 H2]. exists ty2. now rewrite H2.
Qed.

(** The legacy branch with a type: the one pair it can write to. *)
Lemma update_single_typed (d : DB) (u : Z) (body : Body) :
  is_bulk body = false -> truthy_string (type body) = true ->
  after (updateUserPermission u body) d = d \/
  exists p ty,
    after (updateUserPermission u body) d =
    with_user_permissions d (upsert (mkUserPermission u p ty) ty (user_permissions d)).
Proof.
  intros B T. unfold is_bulk in B.
  unfold after, handle, updateUserPermission. rewrite B, T. cbv zeta.
  unfold bind, pool_query, ret, reliable. simpl.
  destruct (truthy_string (permissionName body) && negb (truthy_id (permissionId body)));
    simpl.
  - destruct (permission_ids_by_name _ d) as [| i ids]; simpl; [now left |].
    right. now eexists _, _.
  - destruct (permissionId body) as [p |]; simpl; [| now left].
    right. now eexists _, _.
Qed.

(** ** Grant, then revoke *)

Lemma revoked_not_effective (d : DB) (u : Z) (p : string) :
  (in_catalog d p -> overridden d u "revoke" p) -> resolves_without d u p.
Proof.
  intros H. unfold resolves_without.
  pose proof (effective_In d u p) as E. unfold answer in *.
  rewrite getUserPermissions_run in *. simpl in E.
  do 5 eexists. split; [reflexivity |].
  intros Hin. apply E in Hin as [[Hc | Hc] Hr]; apply Hr, H.
  - eapply names_of_role_in_catalog, Hc.
  - eapply overridden_in_catalog, Hc.
Qed.

Lemma revoke_row_overrides (d : DB) (u : Z) (perm : Permission) :
  In perm (permissions d) ->
  In (mkUserPermission u (perm_id perm) "revoke") (user_permissions d) ->
  overridden d u "revoke" (perm_name perm).
Proof.
  intros Hp Hr. exists (mkUserPermission u (perm_id perm) "revoke"), perm. simpl. tauto.
Qed.

Lemma bulk_written_row (d : DB) (u : Z) (names : list string) (ty : string)
  (perm : Permission) :
  In perm (permissions d) -> In (perm_name perm) names ->
  In (mkUserPermission u (perm_id perm) ty) (user_permissions (bulk_written u names ty d)).
Proof.
  intros Hp Hn. unfold bulk_written. simpl. apply upsert_all_writes; [| reflexivity].
  unfold bulk_rows. apply in_map_iff. exists perm. split; [reflexivity |].
  unfold permissions_by_names. apply filter_In. split; [assumption | now apply mem_In].
Qed.

Lemma permission_ids_by_name_In (d : DB) (p : string) (i : Z) :
  In i (permission_ids_by_name p d) ->
  exists perm, In perm (permissions d) /\ perm_name perm = p /\ perm_id perm = i.
Proof.
  unfold permission_ids_by_name. intros H. apply in_map_iff in H as [perm [E H]].
  apply filter_In in H as [Hp En]. apply String.eqb_eq in En. now exists perm.
Qed.

Lemma typed_by_id_run (d : DB) (u i : Z) (ty : string) :
  ty <> "" ->
  handle (updateUserPermission u (with_type (by_id i) ty)) reliable d =
  (OkMessage "User permission updated",
   mkSession
     (with_user_permissions d (upsert (mkUserPermission u i ty) ty (user_permissions d)))
     [InsertUserPermission u (Some i) ty ty]).
Proof.
  intros T. unfold handle, updateUserPermission, bind, pool_query, ret, reliable. simpl.
  destruct (String.eqb_spec ty ""); [contradiction | reflexivity].
Qed.

Lemma typed_by_name_run (d : DB) (u : Z) (p ty : string) :
  p <> "" -> ty <> "" ->
  handle (updateUserPermission u (with_type (by_name p) ty)) reliable d =
  match permission_ids_by_name p d with
  | i :: _ =>
      (OkMessage "User permission updated",
       mkSession
         (with_user_permissions d (upsert (mkUserPermission u i ty) ty (user_permissions d)))
         [SelectPermissionId p; InsertUserPermission u (Some i) ty ty])
  | [] => (Failure 404 "Permission not found", mkSession d [SelectPermissionId p])
  end.
Proof.
  intros P T. unfold handle, updateUserPermission, bind, pool_query, ret, reliable. simpl.
  destruct (String.eqb_spec ty ""); [contradiction |].
  destruct (String.eqb_spec p ""); [contradiction |]. simpl.
  destruct (permission_ids_by_name p d); reflexivity.
Qed.

(** C3: on reliable storage, a bulk update that lists [p] both to grant and
    to revoke leaves, for every Catalog entry named [p], a revoke row for the
    user, and [getUserPermissions] then answers an effective list without
    [p], whatever the role confers.  The same holds after the grant wrapper
    followed by the revoke wrapper on one permission, given by a non-empty
    name or by an identifier. *)
Theorem grant_then_revoke_not_effective (d : DB) (u : Z) (p : string) (body : Body) :
  In p (or_empty (grantPermissions body)) ->
  In p (or_empty (revokePermissions body)) ->
  let bulk := after (updateUserPermission u body) d in
  (forall perm, In perm (permissions d) -> perm_name perm = p ->
     In (mkUserPermission u (perm_id perm) "revoke") (user_permissions bulk)) /\
  resolves_without bulk u p /\
  (p <> "" ->
   resolves_without
     (after (revokeUserPermission u (by_name p)) (after (grantUserPermission u (by_name p)) d))
     u p) /\
  (forall perm, In perm (permissions d) -> perm_name perm = p ->
     resolves_without
       (after (revokeUserPermission u (by_id (perm_id perm)))
          (after (grantUserPermission u (by_id (perm_id perm))) d))
       u p).
Proof.
  intros Hg Hr bulk.
  assert (B : is_bulk body = true).
  { unfold is_bulk. destruct (grantPermissions body); [reflexivity | contradiction]. }
  assert (Eb : bulk = bulk_written u (or_empty (revokePermissions body)) "revoke"
                 (bulk_written u (or_empty (grantPermissions body)) "grant" d))
    by apply (update_bulk_reliable d u body B).
  clearbody bulk. subst bulk.
  set (bulk := bulk_written u (or_empty (revokePermissions body)) "revoke"
                 (bulk_written u (or_empty (grantPermissions body)) "grant" d)).
  assert (Rows : forall perm, In perm (permissions d) -> perm_name perm = p ->
            In (mkUserPermission u (perm_id perm) "revoke") (user_permissions bulk)).
  { intros perm Hp En. apply bulk_written_row; [exact Hp | now rewrite En]. }
  split; [exact Rows |]. split; [| split].
  - apply revoked_not_effective. intros [perm [Hp En]]. rewrite <- En.
    apply revoke_row_overrides; [exact Hp |].
    apply Rows; [exact Hp | assumption].
  - intros P. unfold after, grantUserPermission, revokeUserPermission.
    rewrite (typed_by_name_run d u p "grant" P) by discriminate.
    destruct (permission_ids_by_name p d) as [| i ids] eqn:E; simpl.
    + rewrite (typed_by_name_run d u p "revoke" P) by discriminate. rewrite E. simpl.
      apply revoked_not_effective. intros [perm [Hp En]]. exfalso.
      assert (Hin : In (perm_id perm) (permission_ids_by_name p d)).
      { unfold permission_ids_by_name. apply in_map, filter_In.
        split; [assumption | now apply String.eqb_eq]. }
      now rewrite E in Hin.
    + rewrite (typed_by_name_run _ u p "revoke" P) by discriminate.
      change (permission_ids_by_name p (with_user_permissions d _))
        with (permission_ids_by_name p d). rewrite E. simpl.
      destruct (permission_ids_by_name_In d p i) as [perm [Hp [En Ei]]];
        [rewrite E; now left |].
      apply revoked_not_effective. intros _. rewrite <- En.
      apply revoke_row_overrides; [exact Hp |]. simpl. rewrite Ei.
      now apply upsert_writes.
  - intros perm Hp En. unfold after, grantUserPermission, revokeUserPermission.
    rewrite (typed_by_id_run d u (perm_id perm) "grant") by discriminate.
    cbn [snd db].
    rewrite (typed_by_id_run _ u (perm_id perm) "revoke") by discriminate.
    cbn [snd db].
    apply revoked_not_effective. intros _. rewrite <- En.
    apply revoke_row_overrides; [exact Hp |]. simpl. now apply upsert_writes.
Qed.

(** ** Unknown names *)






(** ** Requests without any field *)

(** C7 as amended: an update whose body has none of the bulk or legacy
    fields is not rejected.  It takes the legacy branch without a type and
    sends one DELETE whose permission identifier is NULL; the answer is the
    success message (the 500 when that call fails) and the database is as
    it was. *)
Theorem updateUserPermission_without_fields (faulty : nat -> bool) (d : DB) (u : Z)
  (names : option (list string)) :
  handle (updateUserPermission u (mkBody None None None None None names)) faulty d =
  (if faulty 0%nat then Failure 500 "Server error"
   else OkMessage "User permission updated",
   mkSession d [DeleteUserPermission u None]).
Proof.
  unfold handle, updateUserPermission, bind, pool_query, ret. simpl.
  destruct (faulty 0%nat); reflexivity.
Qed.

(** C7 fails: the empty body is answered with success after a storage call. *)
Lemma updateUserPermission_no_validation :
  handle (updateUserPermission 7 empty_body) reliable sample_db =
  (OkMessage "User permission updated",
   mkSession sample_db [DeleteUserPermission 7 None]).
Proof. reflexivity. Qed.

(** ** What a bulk update leaves alone *)

Lemma bulk_rows_other_key (d : DB) (u u' p : Z) (names : list string) (ty : string) :
  (u' <> u \/
   forall perm, In perm (permissions d) -> perm_id perm = p -> ~ In (perm_name perm) names) ->
  forall v, In v (bulk_rows u names ty d) -> has_key u' p v = false.
Proof.
  intros H v Hv. unfold bulk_rows in Hv. apply in_map_iff in Hv as [q [<- Hq]].
  unfold permissions_by_names in Hq. apply filter_In in Hq as [Hq Hm].
  apply mem_In in Hm. unfold has_key. simpl.
  destruct (Z.eqb_spec u u') as [Eu |]; [| reflexivity].
  destruct (Z.eqb_spec (perm_id q) p) as [Ep |]; [| reflexivity].
  exfalso. destruct H as [H | H]; [now apply H | exact (H q Hq Ep Hm)].
Qed.

Lemma bulk_written_frame (d : DB) (u u' p : Z) (names : list string) (ty : string) :
  (u' <> u \/
   forall perm, In perm (permissions d) -> perm_id perm = p -> ~ In (perm_name perm) names) ->
  rows_of u' p (user_permissions (bulk_written u names ty d)) =
  rows_of u' p (user_permissions d).
Proof.
  intros H. unfold bulk_written. simpl.
  apply rows_of_upsert_all_other, (bulk_rows_other_key d u u' p names ty H).
Qed.

Lemma bulk_written_keeps (d : DB) (u : Z) (names : list string) (ty : string)
  (row : UserPermission) :
  (exists t, In (set_type row t) (user_permissions d)) ->
  exists t, In (set_type row t) (user_permissions (bulk_written u names ty d)).
Proof.
  intros [t H]. unfold bulk_written. simpl.
  destruct (upsert_all_keeps_row (bulk_rows u names ty d) _ ty _ H) as [K | K];
    eauto.
Qed.

Lemma bulk_written_length (d : DB) (u : Z) (names : list string) (ty : string) :
  (length (user_permissions d) <=
   length (user_permissions (bulk_written u names ty d)))%nat.
Proof. unfold bulk_written. simpl. apply upsert_all_length_ge. Qed.

(** C9: whichever storage call fails, a bulk update leaves the override
    rows of a pair as they were when the pair belongs to another user, or
    when no Catalog entry with the pair's permission identifier is named in
    either list.  No row is deleted: every row is still there, at most with
    another type, and the table is at least as long as before. *)
Theorem bulk_update_frame (faulty : nat -> bool) (d : DB) (u : Z) (body : Body)
  (u' p : Z) :
  is_bulk body = true ->
  (u' <> u \/
   forall perm, In perm (permissions d) -> perm_id perm = p ->
     ~ In (perm_name perm) (or_empty (grantPermissions body)) /\
     ~ In (perm_name perm) (or_empty (revokePermissions body))) ->
  let d' := db (snd (handle (updateUserPermission u body) faulty d)) in
  rows_of u' p (user_permissions d') = rows_of u' p (user_permissions d) /\
  (forall row, In row (user_permissions d) ->
     exists ty, In (set_type row ty) (user_permissions d')) /\
  (length (user_permissions d) <= length (user_permissions d'))%nat.
Proof.
  intros B H d'.
  set (g := or_empty (grantPermissions body)) in *.
  set (r := or_empty (revokePermissions body)) in *.
  assert (Hg : u' <> u \/ forall perm, In perm (permissions d) -> perm_id perm = p ->
                 ~ In (perm_name perm) g).
  { destruct H as [H | H]; [now left | right]. intros q Hq E. apply (H q Hq E). }
  assert (Hr : u' <> u \/ forall perm, In perm (permissions d) -> perm_id perm = p ->
                 ~ In (perm_name perm) r).
  { destruct H as [H | H]; [now left | right]. intros q Hq E. apply (H q Hq E). }
  assert (Keep0 : forall row, In row (user_permissions d) ->
            exists ty, In (set_type row ty) (user_permissions d)).
  { intros row Hrow. exists (up_type row). now rewrite set_type_same. }
  assert (F1 := bulk_written_frame d u u' p g "grant" Hg).
  assert (F2 := bulk_written_frame (bulk_written u g "grant" d) u u' p r "revoke" Hr).
  assert (L1 := bulk_written_length d u g "grant").
  assert (L2 := bulk_written_length (bulk_written u g "grant" d) u r "revoke").
  destruct (update_bulk_cases faulty d u body B) as [[_ E] | [_ [E | E]]];
    fold g r in E; unfold d'; rewrite E; clear E.
  - split; [congruence | split; [| lia]].
    intros row Hrow. now apply bulk_written_keeps, bulk_written_keeps, Keep0.
  - split; [reflexivity | split; [exact Keep0 | lia]].
  - split; [exact F1 | split; [| exact L1]].
    intros row Hrow. now apply bulk_written_keeps, Keep0.
Qed.

(** ** Statements commit one by one *)

Lemma role_cleared_empty (role : string) (d : DB) :
  names_of_role role (role_cleared role d) = [].
Proof.
  unfold names_of_role, role_cleared. simpl.
  now rewrite (filter_negb_none (fun rp => rp_role rp =? role)).
Qed.

Lemma update_role_visible (d : DB) (role : string) (body : Body) :
  hd_error (visible d (log (snd (handle (updateRolePermissions role body) reliable d)))) =
  Some (role_cleared role d).
Proof.
  unfold handle, updateRolePermissions, bind, pool_query, ret, reliable. simpl.
  destruct (or_empty (permissionNames body)) as [| n names]; simpl; [reflexivity |].
  destruct (permissions_by_names (n :: names) _); reflexivity.
Qed.

(** C8 as amended: the statements of a request take effect one by one.  A
    bulk update either succeeds with the grant rows and then the revoke rows
    written, or answers 500 with the database as it was or with the grant
    rows alone written.  A role replace either succeeds with the role's rows
    replaced, or answers 500 with the database as it was or with the role's
    rows deleted and nothing inserted; and while a replace runs on reliable
    storage, the first database other requests can see is the one in which
    the role confers nothing. *)
Theorem writes_commit_per_statement (faulty : nat -> bool) (d : DB) (u : Z)
  (body : Body) (role : string) (replace : Body) :
  is_bulk body = true ->
  let r := handle (updateUserPermission u body) faulty d in
  let granted := bulk_written u (or_empty (grantPermissions body)) "grant" d in
  let q := handle (updateRolePermissions role replace) faulty d in
  ((fst r = OkMessage "User permissions updated" /\
    db (snd r) = bulk_written u (or_empty (revokePermissions body)) "revoke" granted) \/
   (fst r = Failure 500 "Server error" /\ (db (snd r) = d \/ db (snd r) = granted))) /\
  ((fst q = OkMessage "Role permissions updated" /\
    db (snd q) = role_replaced role (or_empty (permissionNames replace)) d) \/
   (fst q = Failure 500 "Server error" /\
    (db (snd q) = d \/ db (snd q) = role_cleared role d))) /\
  hd_error (visible d (log (snd (handle (updateRolePermissions role replace) reliable d)))) =
    Some (role_cleared role d) /\
  names_of_role role (role_cleared role d) = [].
Proof.
  intros B. split; [| split; [| split]].
  - apply (update_bulk_cases faulty d u body B).
  - apply update_role_cases.
  - apply update_role_visible.
  - apply role_cleared_empty.
Qed.

(** C8 fails: when the fourth storage call of the sample bulk update fails,
    the answer is the 500 and the grant row stays written; when the second
    call of the sample role replace fails, the answer is the 500 and the
    role is left without permissions; and a replace that succeeds shows
    other requests a database in which the role confers nothing. *)
Lemma writes_not_atomic :
  (fst (handle (updateUserPermission 7 sample_bulk) (fails_at 3) sample_db) =
     Failure 500 "Server error" /\
   user_permissions sample_db = [] /\
   user_permissions (db (snd (handle (updateUserPermission 7 sample_bulk) (fails_at 3)
                                 sample_db))) =
     [mkUserPermission 7 3 "grant"]) /\
  (fst (handle (updateRolePermissions "Instructor" sample_replace) (fails_at 1) sample_db) =
     Failure 500 "Server error" /\
   names_of_role "Instructor" sample_db = ["create_quiz"; "view_students"] /\
   names_of_role "Instructor"
     (db (snd (handle (updateRolePermissions "Instructor" sample_replace) (fails_at 1)
                 sample_db))) = []) /\
  (answer (updateRolePermissions "Instructor" sample_replace) sample_db =
     OkMessage "Role permissions updated" /\
   map (names_of_role "Instructor")
     (visible sample_db
        (log (snd (handle (updateRolePermissions "Instructor" sample_replace) reliable
                     sample_db)))) =
     [[]; []; ["edit_syllabus"]]).
Proof. repeat split. Qed.

(** ** The theorems at the sample data *)

Lemma sample_overridden_one_row : one_row_per_pair (user_permissions sample_overridden).
Proof.
  intros u p. unfold rows_of, has_key, sample_overridden, with_user_permissions.
  cbn [user_permissions filter up_userId up_permissionId].
  destruct (Z.eqb_spec 7 u), (Z.eqb_spec 3 p), (Z.eqb_spec 2 p);
    cbn [andb length]; lia.
Defined.

Lemma sample_catalog_ids : NoDup (map perm_id (permissions sample_db)).
Proof. simpl. repeat constructor; simpl; lia. Defined.

Lemma grade_exams_unknown : ~ in_catalog sample_db "grade_exams".
Proof.
  intros [q [Hq E]]. simpl in Hq.
  destruct Hq as [<- | [<- | [<- | []]]]; discriminate E.
Defined.

Lemma grant_then_revoke_not_effective_witness :
  In "view_students" (or_empty (grantPermissions sample_both)) /\
  In "view_students" (or_empty (revokePermissions sample_both)) /\
  resolves_without (after (updateUserPermission 7 sample_both) sample_db) 7 "view_students".
Proof.
  assert (G : In "view_students" (or_empty (grantPermissions sample_both)))
    by (simpl; now left).
  assert (R : In "view_students" (or_empty (revokePermissions sample_both)))
    by (simpl; now left).
  split; [exact G |]. split; [exact R |].
  exact (proj1 (proj2 (grant_then_revoke_not_effective sample_db 7 "view_students"
                         sample_both G R))).
Defined.


Lemma updateRolePermissions_then_get_witness :
  NoDup (map perm_id (permissions sample_db)) /\
  answer (getRolePermissions "Instructor")
    (after (updateRolePermissions "Instructor" sample_replace) sample_db) =
  OkData (RoleView "Instructor" "Instructor" ["edit_syllabus"] 0).
Proof.
  split; [exact sample_catalog_ids |].
  exact (proj1 (proj2 (updateRolePermissions_then_get sample_db "Instructor"
                         sample_replace sample_catalog_ids))).
Defined.

Lemma writes_commit_per_statement_witness :
  is_bulk sample_bulk = true /\
  names_of_role "Instructor" (role_cleared "Instructor" sample_db) = [].
Proof.
  split; [reflexivity |].
  exact (proj2 (proj2 (proj2 (writes_commit_per_statement (fails_at 3) sample_db 7
                                sample_bulk "Instructor" sample_replace eq_refl)))).
Defined.

Lemma bulk_update_frame_witness :
  is_bulk sample_bulk = true /\
  rows_of 7 1 (user_permissions
                 (db (snd (handle (updateUserPermission 7 sample_bulk) (fails_at 3)
                             sample_overridden)))) =
  rows_of 7 1 (user_permissions sample_overridden).
Proof.
  split; [reflexivity |].
  refine (proj1 (bulk_update_frame (fails_at 3) sample_overridden 7 sample_bulk 7 1
                   eq_refl _)).
  right. intros q Hq E. simpl in Hq.
  destruct Hq as [<- | [<- | [<- | []]]]; simpl in E; try discriminate E.
  simpl. split; intros [H | []]; discriminate H.
Defined.

(** ** The legacy branch as one statement *)

Lemma update_single_run (faulty : nat -> bool) (d : DB) (u : Z) (body : Body) :
  is_bulk body = false ->
  truthy_string (permissionName body) && negb (truthy_id (permissionId body)) = false ->
  handle (updateUserPermission u body) faulty d =
  let s := single_stmt u body (permissionId body) in
  if faulty 0%nat then (Failure 500 "Server error", mkSession d [s])
  else match apply_stmt s d with
       | Some d' => (OkMessage "User permission updated", mkSession d' [s])
       | None => (Failure 500 "Server error", mkSession d [s])
       end.
Proof.
  intros B N. unfold is_bulk in B.
  unfold handle, updateUserPermission. rewrite B, N. cbv zeta.
  unfold single_stmt, bind, pool_query, ret. simpl.
  destruct (truthy_string (type body)); simpl;
    destruct (faulty 0%nat); simpl; try reflexivity.
  - destruct (row_to_insert _ _ _); reflexivity.
  - destruct (permissionId body); reflexivity.
Qed.

Lemma update_named_run (faulty : nat -> bool) (d : DB) (u : Z) (body : Body) (name : string) :
  is_bulk body = false ->
  truthy_string (permissionName body) && negb (truthy_id (permissionId body)) = true ->
  permissionName body = Some name ->
  handle (updateUserPermission u body) faulty d =
  if faulty 0%nat then (Failure 500 "Server error", mkSession d [SelectPermissionId name])
  else match permission_ids_by_name name d with
       | [] => (Failure 404 "Permission not found", mkSession d [SelectPermissionId name])
       | i :: _ =>
           let s := single_stmt u body (Some i) in
           if faulty 1%nat
           then (Failure 500 "Server error", mkSession d [SelectPermissionId name; s])
           else match apply_stmt s d with
                | Some d' =>
                    (OkMessage "User permission updated",
                     mkSession d' [SelectPermissionId name; s])
                | None =>
                    (Failure 500 "Server error", mkSession d [SelectPermissionId name; s])
                end
       end.
Proof.
  intros B N E. unfold is_bulk in B.
  unfold handle, updateUserPermission. rewrite B, N, E. cbv zeta.
  unfold single_stmt, bind, pool_query, ret. simpl.
  destruct (faulty 0%nat); simpl; [reflexivity |].
  destruct (permission_ids_by_name name d) as [| i ids]; simpl; [reflexivity |].
  destruct (truthy_string (type body)); simpl;
    destruct (faulty 1%nat); simpl; reflexivity.
Qed.

Lemma truthy_name_some (body : Body) :
  truthy_string (permissionName body) && negb (truthy_id (permissionId body)) = true ->
  exists name, permissionName body = Some name.
Proof.
  destruct (permissionName body) as [n |]; simpl; [eauto | discriminate].
Qed.

Lemma update_single_cases (faulty : nat -> bool) (d : DB) (u : Z) (body : Body) :
  is_bulk body = false ->
  db (snd (handle (updateUserPermission u body) faulty d)) = d \/
  db (snd (handle (updateUserPermission u body) faulty d)) = single_written u body d.
Proof.
  intros B. unfold single_written, single_target.
  destruct (truthy_string (permissionName body) && negb (truthy_id (permissionId body)))
    eqn:N.
  - destruct (truthy_name_some body N) as [name E].
    rewrite (update_named_run faulty d u body name B N E). rewrite E.
    destruct (faulty 0%nat); simpl; [now left |].
    destruct (permission_ids_by_name name d) as [| i ids]; simpl; [now left |].
    destruct (faulty 1%nat); simpl; [now left |].
    destruct (apply_stmt (single_stmt u body (Some i)) d); simpl; now right.
  - rewrite (update_single_run faulty d u body B N). cbv zeta.
    destruct (faulty 0%nat); simpl; [now left |].
    destruct (apply_stmt (single_stmt u body (permissionId body)) d); simpl; now right.
Qed.

Lemma update_single_reliable (d : DB) (u : Z) (body : Body) :
  is_bulk body = false ->
  after (updateUserPermission u body) d = single_written u body d /\
  answer (updateUserPermission u body) d =
  match single_target d body with
  | None => Failure 404 "Permission not found"
  | Some target =>
      match apply_stmt (single_stmt u body target) d with
      | Some _ => OkMessage "User permission updated"
      | None => Failure 500 "Server error"
      end
  end.
Proof.
  intros B. unfold after, answer, single_written, single_target.
  destruct (truthy_string (permissionName body) && negb (truthy_id (permissionId body)))
    eqn:N.
  - destruct (truthy_name_some body N) as [name E].
    rewrite (update_named_run reliable d u body name B N E). rewrite E.
    unfold reliable. simpl.
    destruct (permission_ids_by_name name d) as [| i ids]; simpl; [now split |].
    destruct (apply_stmt (single_stmt u body (Some i)) d); simpl; now split.
  - rewrite (update_single_run reliable d u body B N). cbv zeta.
    unfold reliable. simpl.
    destruct (apply_stmt (single_stmt u body (permissionId body)) d); simpl; now split.
Qed.

(** ** Which fields of a request count *)

(** X1: when a request carries [grantPermissions] or [revokePermissions],
    its legacy fields are not looked at: whatever fails, the update does
    what it does on the body without them, and the grant and revoke wrappers
    do the same as the plain update. *)
Theorem bulk_fields_win (faulty : nat -> bool) (d : DB) (u : Z) (body : Body) :
  is_bulk body = true ->
  handle (updateUserPermission u body) faulty d =
    handle (updateUserPermission u (bulk_only body)) faulty d /\
  handle (grantUserPermission u body) faulty d =
    handle (updateUserPermission u body) faulty d /\
  handle (revokeUserPermission u body) faulty d =
    handle (updateUserPermission u body) faulty d.
Proof.
  intros B. unfold is_bulk in B.
  unfold grantUserPermission, revokeUserPermission, handle, updateUserPermission.
  simpl. rewrite B. repeat split.
Qed.

(** X2: in the legacy branch a truthy [permissionId] wins over
    [permissionName]: whatever fails, the update does what it does on the
    body without the name; no look-up is sent, so an unknown name is not
    reported. *)
Theorem identifier_wins_over_name (faulty : nat -> bool) (d : DB) (u : Z) (body : Body) :
  is_bulk body = false ->
  truthy_id (permissionId body) = true ->
  handle (updateUserPermission u body) faulty d =
    handle (updateUserPermission u (without_name body)) faulty d /\
  (forall n, ~ In (SelectPermissionId n)
                  (log (snd (handle (updateUserPermission u body) faulty d)))) /\
  fst (handle (updateUserPermission u body) faulty d) <>
    Failure 404 "Permission not found".
Proof.
  intros B T.
  assert (N : truthy_string (permissionName body) && negb (truthy_id (permissionId body))
              = false) by (rewrite T; apply andb_false_r).
  rewrite (update_single_run faulty d u body B N).
  rewrite (update_single_run faulty d u (without_name body) B eq_refl).
  split; [reflexivity |]. cbv zeta.
  assert (S : forall n, single_stmt u body (permissionId body) <> SelectPermissionId n).
  { intros n. unfold single_stmt. destruct (negb (truthy_string (type body))); discriminate. }
  destruct (faulty 0%nat); simpl.
  - split; [| discriminate]. intros n [H | []]. exact (S _ H).
  - destruct (apply_stmt (single_stmt u body (permissionId body)) d); simpl;
      (split; [| discriminate]); intros n [H | []]; exact (S _ H).
Qed.

(** X3: a bulk update whose lists are empty or absent (one of them being
    present) succeeds without any storage call, whatever the failure
    pattern, and leaves the database as it was. *)
Theorem empty_bulk_sends_nothing (faulty : nat -> bool) (d : DB) (u : Z) (body : Body) :
  is_bulk body = true ->
  or_empty (grantPermissions body) = [] ->
  or_empty (revokePermissions body) = [] ->
  handle (updateUserPermission u body) faulty d =
  (OkMessage "User permissions updated", mkSession d []).
Proof.
  intros B G R. unfold is_bulk in B.
  unfold handle, updateUserPermission. rewrite B. cbv zeta. rewrite G, R.
  reflexivity.
Qed.

(** ** Which tables a handler writes *)

Lemma apply_override_stmt_same_but (s : Stmt) (d d' : DB) :
  (forall r, s <> DeleteRolePermissions r) -> (forall vs, s <> InsertRolePermissions vs) ->
  apply_stmt s d = Some d' -> same_but_overrides d d'.
Proof.
  intros H1 H2 E. unfold same_but_overrides.
  destruct s as [| | | | | | vs t | u p ty t | u [p |] | u | r | vs];
    simpl in E; try (inversion E; subst; now repeat split).
  - destruct (row_to_insert u p ty); inversion E; subst. now repeat split.
  - now destruct (H1 r).
  - now destruct (H2 vs).
Qed.

Lemma single_written_same_but (u : Z) (body : Body) (d : DB) :
  same_but_overrides d (single_written u body d).
Proof.
  unfold single_written. destruct (single_target d body) as [target |];
    [| now repeat split].
  destruct (apply_stmt (single_stmt u body target) d) as [d' |] eqn:E;
    [| now repeat split].
  apply (apply_override_stmt_same_but _ _ _) with (3 := E);
    intros x; unfold single_stmt; destruct (negb (truthy_string (type body)));
    discriminate.
Qed.

Lemma update_same_but (faulty : nat -> bool) (d : DB) (u : Z) (body : Body) :
  same_but_overrides d (db (snd (handle (updateUserPermission u body) faulty d))).
Proof.
  destruct (is_bulk body) eqn:B.
  - destruct (update_bulk_cases faulty d u body B) as [[_ E] | [_ [E | E]]];
      rewrite E; now repeat split.
  - destruct (update_single_cases faulty d u body B) as [E | E]; rewrite E.
    + now repeat split.
    + apply single_written_same_but.
Qed.

Lemma reset_cases (faulty : nat -> bool) (d : DB) (u : Z) :
  db (snd (handle (resetUserPermissions u) faulty d)) = d \/
  db (snd (handle (resetUserPermissions u) faulty d)) =
  with_user_permissions d
    (filter (fun r => negb (up_userId r =? u)%Z) (user_permissions d)).
Proof.
  unfold handle, resetUserPermissions, bind, pool_query, ret. simpl.
  destruct (faulty 0%nat); simpl; [now left | now right].
Qed.

Lemma perform_same_but (faulty : nat -> bool) (d : DB) (c : Call) :
  same_but_overrides d (db (snd (handle (perform c) faulty d))).
Proof.
  destruct c as [u b | u b | u b | u]; simpl; try apply update_same_but.
  destruct (reset_cases faulty d u) as [E | E]; rewrite E; now repeat split.
Qed.

(** X4: whatever fails, the override handlers (update in both forms, the
    grant and revoke wrappers, reset) leave [users], [permissions] and
    [role_permissions] as they were; the role replace leaves [users],
    [permissions] and [user_permissions] as they were; and the three read
    handlers leave the whole database as it was. *)
Theorem handlers_write_their_table_only (faulty : nat -> bool) (d : DB) (c : Call)
  (role : string) (body : Body) (u : Z) :
  same_but_overrides d (db (snd (handle (perform c) faulty d))) /\
  same_but_roles d (db (snd (handle (updateRolePermissions role body) faulty d))) /\
  db (snd (handle getAllPermissions faulty d)) = d /\
  db (snd (handle (getUserPermissions u) faulty d)) = d /\
  db (snd (handle (getRolePermissions role) faulty d)) = d.
Proof.
  split; [apply perform_same_but |]. split; [| split; [| split]].
  - destruct (update_role_cases faulty d role body) as [[_ E] | [_ [E | E]]];
      rewrite E; now repeat split.
  - unfold handle, getAllPermissions, bind, pool_query, ret. simpl.
    destruct (faulty 0%nat); reflexivity.
  - unfold handle, getUserPermissions, bind, pool_query, ret. simpl.
    destruct (faulty 0%nat); simpl; [reflexivity |].
    destruct (faulty 1%nat); simpl; [reflexivity |].
    destruct (faulty 2%nat); reflexivity.
  - unfold handle, getRolePermissions, bind, pool_query, ret. simpl.
    destruct (faulty 0%nat); reflexivity.
Qed.

(** ** The one pair of a single update *)

Lemma rows_of_delete_other (u p u' p' : Z) (tbl : list UserPermission) :
  u' <> u \/ p' <> p ->
  rows_of u' p' (filter (fun r => negb ((up_userId r =? u)%Z && (up_permissionId r =? p)%Z)) tbl)
  = rows_of u' p' tbl.
Proof.
  intros H. unfold rows_of. rewrite filter_swap. apply filter_all.
  intros r Hr. apply filter_In in Hr as [_ K]. unfold has_key in K.
  apply andb_true_iff in K as [Ku Kp]. apply Z.eqb_eq in Ku, Kp. subst.
  apply negb_true_iff, andb_false_iff.
  destruct H as [H | H]; [left | right]; now apply Z.eqb_neq.
Qed.

Lemma rows_of_delete_same (u p : Z) (tbl : list UserPermission) :
  rows_of u p (filter (fun r => negb ((up_userId r =? u)%Z && (up_permissionId r =? p)%Z)) tbl)
  = [].
Proof. unfold rows_of. apply (filter_negb_none (has_key u p)). Qed.

Lemma has_key_other (u p u' p' : Z) (ty : string) :
  u' <> u \/ p' <> p -> has_key u' p' (mkUserPermission u p ty) = false.
Proof.
  intros H. unfold has_key. simpl. apply andb_false_iff.
  destruct H as [H | H]; [left | right]; apply Z.eqb_neq; congruence.
Qed.

Lemma single_written_frame (d : DB) (u : Z) (body : Body) (u' p' : Z) :
  u' <> u \/ single_target d body <> Some (Some p') ->
  rows_of u' p' (user_permissions (single_written u body d)) =
  rows_of u' p' (user_permissions d).
Proof.
  intros H. unfold single_written.
  destruct (single_target d body) as [[p |] |]; [| | reflexivity].
  - assert (K : u' <> u \/ p' <> p).
    { destruct H as [H | H]; [now left | right]. congruence. }
    unfold single_stmt. destruct (negb (truthy_string (type body))); simpl.
    + now apply rows_of_delete_other.
    + apply rows_of_upsert_other. now apply has_key_other.
  - unfold single_stmt. now destruct (negb (truthy_string (type body))).
Qed.

(** X5: whatever fails, a single update of user [u] leaves the override
    rows of every other pair as they were: the pairs of other users, and the
    pairs of [u] with a permission identifier other than the one the request
    resolves to. *)
Theorem single_update_frame (faulty : nat -> bool) (d : DB) (u : Z) (body : Body)
  (u' p' : Z) :
  is_bulk body = false ->
  u' <> u \/ single_target d body <> Some (Some p') ->
  rows_of u' p' (user_permissions (db (snd (handle (updateUserPermission u body) faulty d))))
  = rows_of u' p' (user_permissions d).
Proof.
  intros B H. destruct (update_single_cases faulty d u body B) as [E | E]; rewrite E.
  - reflexivity.
  - now apply single_written_frame.
Qed.

(** X6: on reliable storage a single update that resolves to the
    permission identifier [p] succeeds; without a type it leaves the pair
    (u, p) without any row (also when it had none), with a type it leaves
    the pair's first row as (u, p, type), the pair's further rows, if any,
    as they were. *)
Theorem single_update_effect (d : DB) (u p : Z) (body : Body) :
  is_bulk body = false ->
  single_target d body = Some (Some p) ->
  answer (updateUserPermission u body) d = OkMessage "User permission updated" /\
  rows_of u p (user_permissions (after (updateUserPermission u body) d)) =
  match type body with
  | Some ty =>
      if ty =? "" then []
      else mkUserPermission u p ty :: tl (rows_of u p (user_permissions d))
  | None => []
  end.
Proof.
  intros B T. destruct (update_single_reliable d u body B) as [-> ->].
  unfold single_written. rewrite T. unfold single_stmt.
  assert (K : has_key u p (mkUserPermission u p
                (match type body with Some t => t | None => "" end)) = true).
  { unfold has_key. simpl. now rewrite !Z.eqb_refl. }
  destruct (type body) as [ty |]; simpl.
  - destruct (ty =? ""); simpl.
    + split; [reflexivity | apply rows_of_delete_same].
    + split; [reflexivity |]. rewrite (rows_of_upsert_same _ _ _ _ _ K).
      destruct (rows_of u p (user_permissions d)) as [| x rest] eqn:R;
        [reflexivity |]. simpl. f_equal.
      assert (Hx : In x (rows_of u p (user_permissions d))) by (rewrite R; now left).
      unfold rows_of in Hx. apply filter_In in Hx as [_ Hx].
      unfold has_key in Hx. apply andb_true_iff in Hx as [Eu Ep].
      apply Z.eqb_eq in Eu, Ep. destruct x; simpl in *. now subst.
  - split; [reflexivity | apply rows_of_delete_same].
Qed.

(** ** Doing a single update twice *)

Lemma upsert_idem (r : UserPermission) (t : string) (tbl : list UserPermission) :
  up_type r = t -> upsert r t (upsert r t tbl) = upsert r t tbl.
Proof.
  intros Ht. assert (K : same_key r r = true).
  { unfold same_key. now rewrite !Z.eqb_refl. }
  induction tbl as [| x tbl IH]; simpl.
  - rewrite K. f_equal. rewrite <- Ht. apply set_type_same.
  - destruct (same_key x r) eqn:E; simpl.
    + change (same_key (set_type x t) r) with (same_key x r). now rewrite E.
    + now rewrite E, IH.
Qed.

Lemma apply_single_stmt_idem (u : Z) (body : Body) (target : option Z) (d d' : DB) :
  apply_stmt (single_stmt u body target) d = Some d' ->
  apply_stmt (single_stmt u body target) d' = Some d'.
Proof.
  unfold single_stmt. destruct (negb (truthy_string (type body))); simpl.
  - destruct target as [p |]; intros E; inversion E; subst; [| reflexivity].
    simpl. unfold with_user_permissions. simpl. now rewrite filter_idem.
  - destruct target as [p |]; simpl; intros E; inversion E; subst.
    simpl. unfold with_user_permissions. simpl. now rewrite upsert_idem.
Qed.

(** X7: on reliable storage, sending the same single update a second time
    gives the answer of the first and leaves the database as the first left
    it. *)
Theorem single_update_idempotent (d : DB) (u : Z) (body : Body) :
  is_bulk body = false ->
  let d' := after (updateUserPermission u body) d in
  after (updateUserPermission u body) d' = d' /\
  answer (updateUserPermission u body) d' = answer (updateUserPermission u body) d.
Proof.
  intros B d'.
  destruct (update_single_reliable d u body B) as [Ed Ea].
  assert (E' : d' = single_written u body d) by exact Ed.
  destruct (update_single_reliable d' u body B) as [Ed' Ea'].
  rewrite Ed', Ea', Ea. clear Ed Ea Ed' Ea'.
  assert (T : single_target d' body = single_target d body).
  { rewrite E'. unfold single_target, permission_ids_by_name.
    destruct (single_written_same_but u body d) as (_ & -> & _). reflexivity. }
  unfold single_written at 1. rewrite T. rewrite E'. unfold single_written.
  destruct (single_target d body) as [target |]; [| now split].
  destruct (apply_stmt (single_stmt u body target) d) as [d1 |] eqn:E1.
  - rewrite (apply_single_stmt_idem u body target d d1 E1). now split.
  - rewrite E1. now split.
Qed.

(** ** Users and roles do not interfere *)

Lemma answer_getUserPermissions_ext (d d' : DB) (u : Z) :
  same_but_overrides d d' ->
  rows_of_user u (user_permissions d') = rows_of_user u (user_permissions d) ->
  answer (getUserPermissions u) d' = answer (getUserPermissions u) d.
Proof.
  intros (Hu & Hp & Hr) Hrows. unfold answer. rewrite !getUserPermissions_run.
  unfold rows_of_user in Hrows.
  unfold roles_of_user, overrides_of_user, names_of_role, joined.
  rewrite Hu, Hp, Hr, Hrows. reflexivity.
Qed.

Lemma rows_of_user_upsert_other (u' : Z) (r : UserPermission) (t : string)
  (tbl : list UserPermission) :
  up_userId r <> u' -> rows_of_user u' (upsert r t tbl) = rows_of_user u' tbl.
Proof.
  intros H. unfold rows_of_user. induction tbl as [| x tbl IH]; simpl.
  - apply Z.eqb_neq in H. now rewrite H.
  - destruct (same_key x r) eqn:E; simpl; [| now rewrite IH].
    unfold same_key in E. apply andb_true_iff in E as [Eu _]. apply Z.eqb_eq in Eu.
    assert (K : (up_userId x =? u')%Z = false) by (apply Z.eqb_neq; congruence).
    now rewrite K.
Qed.

Lemma rows_of_user_upsert_all_other (u' : Z) (values : list UserPermission) (t : string)
  (tbl : list UserPermission) :
  (forall v, In v values -> up_userId v <> u') ->
  rows_of_user u' (upsert_all values t tbl) = rows_of_user u' tbl.
Proof.
  unfold upsert_all. revert tbl.
  induction values as [| v values IH]; intros tbl H; simpl; [reflexivity |].
  rewrite IH; [| intros w Hw; apply H; now right].
  apply rows_of_user_upsert_other, H. now left.
Qed.

Lemma bulk_written_rows_of_user (d : DB) (u u' : Z) (names : list string) (ty : string) :
  u <> u' ->
  rows_of_user u' (user_permissions (bulk_written u names ty d)) =
  rows_of_user u' (user_permissions d).
Proof.
  intros H. unfold bulk_written. simpl. apply rows_of_user_upsert_all_other.
  intros v Hv. unfold bulk_rows in Hv. apply in_map_iff in Hv as [q [<- _]]. exact H.
Qed.

Lemma rows_of_user_filter_other (u' : Z) (f : UserPermission -> bool)
  (tbl : list UserPermission) :
  (forall r, up_userId r = u' -> f r = true) ->
  rows_of_user u' (filter f tbl) = rows_of_user u' tbl.
Proof.
  intros H. unfold rows_of_user. rewrite filter_swap. apply filter_all.
  intros r Hr. apply filter_In in Hr as [_ E]. apply Z.eqb_eq in E. now apply H.
Qed.

Lemma single_written_rows_of_user (d : DB) (u u' : Z) (body : Body) :
  u <> u' ->
  rows_of_user u' (user_permissions (single_written u body d)) =
  rows_of_user u' (user_permissions d).
Proof.
  intros H. unfold single_written.
  destruct (single_target d body) as [[p |] |]; [| | reflexivity];
    unfold single_stmt; destruct (negb (truthy_string (type body))); simpl;
    try reflexivity.
  - apply rows_of_user_filter_other. intros r E. apply negb_true_iff, andb_false_iff.
    left. apply Z.eqb_neq. congruence.
  - now apply rows_of_user_upsert_other.
Qed.

Lemma update_rows_of_user (faulty : nat -> bool) (d : DB) (u u' : Z) (body : Body) :
  u <> u' ->
  rows_of_user u' (user_permissions (db (snd (handle (updateUserPermission u body) faulty d))))
  = rows_of_user u' (user_permissions d).
Proof.
  intros H. destruct (is_bulk body) eqn:B.
  - destruct (update_bulk_cases faulty d u body B) as [[_ E] | [_ [E | E]]]; rewrite E.
    + now rewrite !bulk_written_rows_of_user.
    + reflexivity.
    + now rewrite bulk_written_rows_of_user.
  - destruct (update_single_cases faulty d u body B) as [E | E]; rewrite E;
      [reflexivity | now apply single_written_rows_of_user].
Qed.

Lemma perform_rows_of_user (faulty : nat -> bool) (d : DB) (c : Call) (u' : Z) :
  call_user c <> u' ->
  rows_of_user u' (user_permissions (db (snd (handle (perform c) faulty d)))) =
  rows_of_user u' (user_permissions d).
Proof.
  intros H. destruct c as [u b | u b | u b | u]; simpl in *;
    try now apply update_rows_of_user.
  destruct (reset_cases faulty d u) as [E | E]; rewrite E; [reflexivity |]. simpl.
  apply rows_of_user_filter_other. intros r Er. apply negb_true_iff, Z.eqb_neq. congruence.
Qed.

(** X8: whatever fails, an override call about one user (update in either
    form, grant, revoke, reset) leaves the override rows of every other user
    as they were, and [getUserPermissions] answers for every other user what
    it answered before. *)
Theorem override_calls_keep_other_users (faulty : nat -> bool) (d : DB) (c : Call)
  (u' : Z) :
  call_user c <> u' ->
  let d' := db (snd (handle (perform c) faulty d)) in
  rows_of_user u' (user_permissions d') = rows_of_user u' (user_permissions d) /\
  answer (getUserPermissions u') d' = answer (getUserPermissions u') d.
Proof.
  intros H d'. pose proof (perform_rows_of_user faulty d c u' H) as R.
  split; [exact R |].
  apply answer_getUserPermissions_ext; [apply perform_same_but | exact R].
Qed.

Lemma filter_role_cleared_other (role role' : string) (l : list RolePermission) :
  role' <> role ->
  filter (fun rp => rp_role rp =? role') (filter (fun r => negb (rp_role r =? role)) l) =
  filter (fun rp => rp_role rp =? role') l.
Proof.
  intros H. rewrite filter_swap. apply filter_all. intros r Hr.
  apply filter_In in Hr as [_ E]. apply String.eqb_eq in E.
  apply negb_true_iff, String.eqb_neq. congruence.
Qed.

Lemma names_of_role_cleared_other (role role' : string) (d : DB) :
  role' <> role -> names_of_role role' (role_cleared role d) = names_of_role role' d.
Proof.
  intros H. unfold names_of_role, role_cleared. simpl.
  now rewrite filter_role_cleared_other.
Qed.

Lemma names_of_role_replaced_other (role role' : string) (names : list string) (d : DB) :
  role' <> role -> names_of_role role' (role_replaced role names d) = names_of_role role' d.
Proof.
  intros H. unfold names_of_role, role_replaced, role_cleared. simpl.
  rewrite filter_app, filter_role_cleared_other by assumption.
  rewrite (filter_none _ (role_rows role names d)); [now rewrite app_nil_r |].
  intros rp Hrp. apply role_rows_role in Hrp. apply String.eqb_neq. congruence.
Qed.

Lemma update_role_names_other (faulty : nat -> bool) (d : DB) (role role' : string)
  (body : Body) :
  role' <> role ->
  names_of_role role' (db (snd (handle (updateRolePermissions role body) faulty d))) =
  names_of_role role' d.
Proof.
  intros H. destruct (update_role_cases faulty d role body) as [[_ E] | [_ [E | E]]];
    rewrite E.
  - now apply names_of_role_replaced_other.
  - reflexivity.
  - now apply names_of_role_cleared_other.
Qed.

(** X9: whatever fails, a role replace leaves every other role's
    permission list as it was, answers of [getUserPermissions] for users of
    other roles as they were, and every user's override rows, as the
    resolver reads them, as they were. *)
Theorem role_replace_keeps_other_roles (faulty : nat -> bool) (d : DB) (role : string)
  (body : Body) (u : Z) (role' : string) :
  role' <> role ->
  let d' := db (snd (handle (updateRolePermissions role body) faulty d)) in
  answer (getRolePermissions role') d' = answer (getRolePermissions role') d /\
  (role_or_default (roles_of_user u d) = role' ->
   answer (getUserPermissions u) d' = answer (getUserPermissions u) d) /\
  overrides_of_user u d' = overrides_of_user u d.
Proof.
  intros H d'.
  pose proof (update_role_names_other faulty d role role' body H) as N. fold d' in N.
  assert (S : same_but_roles d d').
  { unfold d'. destruct (update_role_cases faulty d role body) as [[_ E] | [_ [E | E]]];
      rewrite E; now repeat split. }
  destruct S as (Hu & Hp & Ho).
  assert (O : overrides_of_user u d' = overrides_of_user u d).
  { unfold overrides_of_user, joined. now rewrite Hp, Ho. }
  split; [| split; [| exact O]].
  - unfold answer. rewrite !getRolePermissions_run. simpl. now rewrite N.
  - intros R. unfold answer. rewrite !getUserPermissions_run. simpl.
    assert (R' : role_or_default (roles_of_user u d') = role').
    { unfold roles_of_user. rewrite Hu. exact R. }
    rewrite R', R, N, O. reflexivity.
Qed.

(** ** Rows of an upsert, when pairs have one row *)

Lemma In_rows_of (y : UserPermission) (tbl : list UserPermission) :
  In y tbl <-> In y (rows_of (up_userId y) (up_permissionId y) tbl).
Proof.
  unfold rows_of. rewrite filter_In. unfold has_key. rewrite !Z.eqb_refl. simpl. tauto.
Qed.

Lemma has_key_own (y r : UserPermission) :
  has_key (up_userId y) (up_permissionId y) r = same_key y r.
Proof.
  unfold has_key, same_key.
  now rewrite (Z.eqb_sym (up_userId r)), (Z.eqb_sym (up_permissionId r)).
Qed.

Lemma same_key_eq (x r : UserPermission) :
  same_key x r = true -> set_type x (up_type r) = r.
Proof.
  unfold same_key. intros H. apply andb_true_iff in H as [Eu Ep].
  apply Z.eqb_eq in Eu, Ep. destruct x, r; simpl in *. now subst.
Qed.

Lemma same_key_refl (r : UserPermission) : same_key r r = true.
Proof. unfold same_key. now rewrite !Z.eqb_refl. Qed.

Lemma upsert_In_iff (r y : UserPermission) (t : string) (tbl : list UserPermission) :
  one_row_per_pair tbl -> up_type r = t ->
  In y (upsert r t tbl) <-> (In y tbl /\ same_key y r = false) \/ y = r.
Proof.
  intros Inv Ht. rewrite (In_rows_of y (upsert r t tbl)), (In_rows_of y tbl).
  destruct (same_key y r) eqn:E.
  - assert (K : has_key (up_userId y) (up_permissionId y) r = true)
      by now rewrite has_key_own.
    rewrite (rows_of_upsert_same _ _ _ _ _ K).
    pose proof (Inv (up_userId y) (up_permissionId y)) as L.
    destruct (rows_of (up_userId y) (up_permissionId y) tbl) as [| x rest] eqn:R.
    + simpl. intuition congruence.
    + destruct rest; [| simpl in L; lia].
      assert (Hx : In x (rows_of (up_userId y) (up_permissionId y) tbl))
        by (rewrite R; now left).
      unfold rows_of in Hx. apply filter_In in Hx as [_ Hx].
      rewrite <- (same_key_has_key x r _ _ K) in Hx.
      apply same_key_eq in Hx. rewrite Ht in Hx. rewrite Hx. simpl.
      intuition congruence.
  - assert (K : has_key (up_userId y) (up_permissionId y) r = false)
      by now rewrite has_key_own.
    rewrite (rows_of_upsert_other _ _ _ _ _ K). split; [tauto |].
    intros [[H _] | H]; [exact H |]. subst. rewrite same_key_refl in E. discriminate.
Qed.

Lemma same_key_trans_eq (v w : UserPermission) :
  same_key v w = true -> up_type v = up_type w -> v = w.
Proof.
  intros H T. apply same_key_eq in H. rewrite <- T in H. now rewrite set_type_same in H.
Qed.

Lemma same_key_congr (y v w : UserPermission) :
  same_key v w = true -> same_key y w = same_key y v.
Proof.
  unfold same_key. intros H. apply andb_true_iff in H as [Eu Ep].
  apply Z.eqb_eq in Eu, Ep. now rewrite Eu, Ep.
Qed.

Lemma upsert_all_In_iff (values : list UserPermission) (y : UserPermission) (t : string)
  (tbl : list UserPermission) :
  one_row_per_pair tbl -> (forall v, In v values -> up_type v = t) ->
  In y (upsert_all values t tbl) <->
  (In y tbl /\ existsb (same_key y) values = false) \/ In y values.
Proof.
  unfold upsert_all. revert tbl.
  induction values as [| v values IH]; intros tbl Inv Ht; simpl.
  - tauto.
  - rewrite IH; [| now apply upsert_one_row | intros w Hw; apply Ht; now right].
    rewrite (upsert_In_iff v y t tbl Inv (Ht v (or_introl eq_refl))).
    rewrite orb_false_iff. split.
    + intros [[[[H1 H2] | H1] H3] | H]; auto.
    + intros [[H1 [H2 H3]] | [H | H]]; auto.
      subst y. destruct (existsb (same_key v) values) eqn:E; [| auto].
      right. apply existsb_exists in E as [w [Hw Ew]].
      rewrite (same_key_trans_eq v w Ew); [exact Hw |].
      rewrite (Ht v (or_introl eq_refl)). symmetry. apply Ht. now right.
Qed.

(** ** The catalog as a key *)

Lemma catalog_by_id (d : DB) (q q' : Permission) :
  NoDup (map perm_id (permissions d)) ->
  In q (permissions d) -> In q' (permissions d) -> perm_id q = perm_id q' -> q = q'.
Proof.
  intros N H H' E. pose proof (joined_unique d q N H) as J.
  assert (K : In q' (joined (perm_id q) d)) by (apply joined_In; now split).
  rewrite J in K. destruct K as [K | []]. exact K.
Qed.

Lemma bulk_rows_In (d : DB) (u : Z) (names : list string) (ty : string)
  (v : UserPermission) :
  In v (bulk_rows u names ty d) <->
  exists q, In q (permissions d) /\ In (perm_name q) names /\
            v = mkUserPermission u (perm_id q) ty.
Proof.
  unfold bulk_rows, permissions_by_names. rewrite in_map_iff. split.
  - intros [q [E H]]. apply filter_In in H as [H M]. apply mem_In in M. now exists q.
  - intros [q (H & M & E)]. exists q. split; [now symmetry |].
    apply filter_In. split; [assumption | now apply mem_In].
Qed.

Lemma overridden_bulk_written (d : DB) (u : Z) (names : list string) (t ty q : string) :
  NoDup (map perm_id (permissions d)) ->
  one_row_per_pair (user_permissions d) ->
  overridden (bulk_written u names t d) u ty q <->
  (overridden d u ty q /\ ~ In q names) \/ (ty = t /\ In q names /\ in_catalog d q).
Proof.
  intros N Inv. unfold overridden at 1. unfold bulk_written. simpl.
  assert (Typed : forall v, In v (bulk_rows u names t d) -> up_type v = t).
  { intros v Hv. apply bulk_rows_In in Hv as [x (_ & _ & ->)]. reflexivity. }
  split.
  - intros [y [perm (Hy & Eu & Et & Hp & Ei & En)]].
    apply (upsert_all_In_iff _ y t _ Inv Typed) in Hy as [[Hy Hk] | Hy].
    + left. split; [now exists y, perm |]. intros Hin.
      assert (Hv : In (mkUserPermission u (perm_id perm) t) (bulk_rows u names t d)).
      { apply bulk_rows_In. exists perm. rewrite En. now repeat split. }
      assert (C : existsb (same_key y) (bulk_rows u names t d) = true).
      { apply existsb_exists. eexists. split; [exact Hv |].
        unfold same_key. simpl. now rewrite Eu, Ei, !Z.eqb_refl. }
      congruence.
    + right. apply bulk_rows_In in Hy as [x (Hx & Hn & ->)]. simpl in *.
      assert (perm = x) by (apply (catalog_by_id d); assumption). subst x.
      rewrite <- En. repeat split; [now symmetry | exact Hn | now exists perm].
  - intros [[[y [perm (Hy & Eu & Et & Hp & Ei & En)]] Hn] | (Et & Hn & [perm [Hp En]])].
    + exists y, perm. repeat split; try assumption.
      apply (upsert_all_In_iff _ y t _ Inv Typed). left. split; [exact Hy |].
      destruct (existsb (same_key y) (bulk_rows u names t d)) eqn:C; [| reflexivity].
      exfalso. apply existsb_exists in C as [v [Hv Ev]].
      apply bulk_rows_In in Hv as [x (Hx & Hxn & ->)].
      unfold same_key in Ev. simpl in Ev. apply andb_true_iff in Ev as [_ Ev].
      apply Z.eqb_eq in Ev.
      assert (perm = x) by (apply (catalog_by_id d); congruence). subst x.
      apply Hn. now rewrite <- En.
    + exists (mkUserPermission u (perm_id perm) t), perm. simpl.
      repeat split; try assumption; [| now symmetry].
      apply (upsert_all_In_iff _ _ t _ Inv Typed). right.
      apply bulk_rows_In. exists perm. rewrite En. now repeat split.
Qed.

Lemma NoDup_map_inj {A B} (f : A -> B) (l : list A) (x y : A) :
  NoDup (map f l) -> In x l -> In y l -> f x = f y -> x = y.
Proof.
  induction l as [| a l IH]; intros N Hx Hy E; simpl in *; [contradiction |].
  inversion N as [| b bs Ha N']; subst.
  destruct Hx as [-> | Hx], Hy as [-> | Hy]; auto.
  - exfalso. apply Ha. rewrite E. now apply in_map.
  - exfalso. apply Ha. rewrite <- E. now apply in_map.
Qed.

Lemma effective_after (d d' : DB) (u : Z) (q : string) :
  same_but_overrides d d' ->
  In q (effective d' u) <->
  (role_confers d (role_or_default (roles_of_user u d)) q \/ overridden d' u "grant" q) /\
  ~ overridden d' u "revoke" q.
Proof.
  intros (Hu & Hp & Hr). unfold effective. rewrite effective_In.
  unfold roles_of_user, role_confers. rewrite Hu, Hp, Hr. reflexivity.
Qed.

(** ** What an update does to the effective set *)

(** X10: when permission identifiers are unique in the Catalog and every
    pair has at most one override row, a bulk update on reliable storage
    turns the user's effective set E into (E ∪ (G ∩ Catalog)) \ R, for G the
    names to grant and R the names to revoke. *)
Theorem bulk_update_on_effective_set (d : DB) (u : Z) (body : Body) (q : string) :
  NoDup (map perm_id (permissions d)) ->
  one_row_per_pair (user_permissions d) ->
  is_bulk body = true ->
  In q (effective (after (updateUserPermission u body) d) u) <->
  ~ In q (or_empty (revokePermissions body)) /\
  (In q (effective d u) \/
   (In q (or_empty (grantPermissions body)) /\ in_catalog d q)).
Proof.
  intros N Inv B. destruct (update_bulk_reliable d u body B) as [_ ->].
  set (G := or_empty (grantPermissions body)).
  set (R := or_empty (revokePermissions body)).
  set (d1 := bulk_written u G "grant" d).
  assert (Inv1 : one_row_per_pair (user_permissions d1)).
  { unfold d1, bulk_written. simpl. now apply upsert_all_one_row. }
  rewrite (effective_after d (bulk_written u R "revoke" d1) u q)
    by (now repeat split).
  rewrite (effective_after d d u q) by (now repeat split).
  rewrite !(overridden_bulk_written d1 u R "revoke") by assumption.
  unfold d1. rewrite !(overridden_bulk_written d u G "grant") by assumption.
  change (in_catalog (bulk_written u G "grant" d) q) with (in_catalog d q).
  pose proof (names_of_role_in_catalog d (role_or_default (roles_of_user u d)) q) as C1.
  pose proof (overridden_in_catalog d u "grant" q) as C2.
  assert (D1 : "grant" <> "revoke") by discriminate.
  assert (D2 : "revoke" <> "grant") by discriminate.
  destruct (in_dec string_dec q G), (in_dec string_dec q R); intuition.
Qed.

Lemma permission_ids_by_names (d : DB) (p : string) :
  permission_ids_by_name p d = map perm_id (permissions_by_names [p] d).
Proof.
  unfold permission_ids_by_name, permissions_by_names. f_equal.
  apply filter_ext. intros x. unfold mem. simpl. now rewrite orb_false_r.
Qed.

Lemma permissions_by_name_one (d : DB) (p : string) (x : Permission) (l : list Permission) :
  NoDup (map perm_name (permissions d)) ->
  permissions_by_names [p] d = x :: l -> l = [].
Proof.
  intros N E. destruct l as [| z l]; [reflexivity | exfalso].
  assert (Hx : In x (permissions_by_names [p] d)) by (rewrite E; now left).
  assert (Hz : In z (permissions_by_names [p] d)) by (rewrite E; right; now left).
  unfold permissions_by_names in Hx, Hz, E.
  apply filter_In in Hx as [Hx Mx]. apply filter_In in Hz as [Hz Mz].
  apply mem_In in Mx as [Mx | []]. apply mem_In in Mz as [Mz | []].
  assert (x = z) by (apply (NoDup_map_inj perm_name (permissions d)); congruence).
  subst z.
  assert (D : NoDup (filter (fun q => mem (perm_name q) [p]) (permissions d))).
  { apply NoDup_filter. eapply NoDup_map_inv, N. }
  rewrite E in D. inversion D as [| a b Ha _]; subst. apply Ha. now left.
Qed.

Lemma typed_by_name_is_bulk (d : DB) (u : Z) (p ty : string) :
  NoDup (map perm_name (permissions d)) -> p <> "" -> ty <> "" ->
  after (updateUserPermission u (with_type (by_name p) ty)) d = bulk_written u [p] ty d.
Proof.
  intros N P T. unfold after. rewrite (typed_by_name_run d u p ty P T).
  rewrite permission_ids_by_names. unfold bulk_written, bulk_rows.
  destruct (permissions_by_names [p] d) as [| x l] eqn:E; simpl.
  - symmetry. apply with_user_permissions_same.
  - rewrite (permissions_by_name_one d p x l N E). reflexivity.
Qed.

Lemma reset_one_by_name_run (d : DB) (u : Z) (p : string) :
  p <> "" ->
  after (updateUserPermission u (by_name p)) d =
  match permission_ids_by_name p d with
  | i :: _ =>
      with_user_permissions d
        (filter (fun r => negb ((up_userId r =? u)%Z && (up_permissionId r =? i)%Z))
                (user_permissions d))
  | [] => d
  end.
Proof.
  intros P. unfold after, handle, updateUserPermission, bind, pool_query, ret, reliable.
  simpl. destruct (String.eqb_spec p ""); [contradiction |]. simpl.
  destruct (permission_ids_by_name p d); reflexivity.
Qed.

Lemma overridden_deleted (d : DB) (u i : Z) (p ty q : string) :
  catalog_keyed d -> In (mkPermission i p) (permissions d) ->
  overridden
    (with_user_permissions d
       (filter (fun r => negb ((up_userId r =? u)%Z && (up_permissionId r =? i)%Z))
               (user_permissions d))) u ty q <->
  overridden d u ty q /\ q <> p.
Proof.
  intros [Ni Nn] Hip. unfold overridden. simpl. split.
  - intros [y [perm (Hy & Eu & Et & Hp & Ei & En)]].
    apply filter_In in Hy as [Hy K]. split; [now exists y, perm |].
    intros ->. assert (perm = mkPermission i p)
      by (apply (NoDup_map_inj perm_name (permissions d)); assumption).
    subst perm. simpl in Ei. rewrite Eu, <- Ei, !Z.eqb_refl in K. discriminate.
  - intros [[y [perm (Hy & Eu & Et & Hp & Ei & En)]] Hq].
    exists y, perm. repeat split; try assumption.
    apply filter_In. split; [assumption |].
    apply negb_true_iff, andb_false_iff. right. apply Z.eqb_neq. intros E.
    assert (perm = mkPermission i p)
      by (apply (NoDup_map_inj perm_id (permissions d)); simpl; congruence).
    subst perm. now apply Hq.
Qed.

(** X11: when the Catalog has one entry per identifier and per name and
    every pair has at most one override row, the single updates by a
    non-empty Catalog name [p] act on the user's effective set E as follows,
    on reliable storage: the grant wrapper gives E ∪ {p}, the revoke wrapper
    gives E \ {p}, and the update without a type puts [p] back to what the
    role confers, leaving the other names as they were. *)
Theorem single_updates_on_effective_set (d : DB) (u : Z) (p q : string) :
  catalog_keyed d ->
  one_row_per_pair (user_permissions d) ->
  in_catalog d p ->
  p <> "" ->
  (In q (effective (after (grantUserPermission u (by_name p)) d) u) <->
   In q (effective d u) \/ q = p) /\
  (In q (effective (after (revokeUserPermission u (by_name p)) d) u) <->
   In q (effective d u) /\ q <> p) /\
  (In q (effective (after (updateUserPermission u (by_name p)) d) u) <->
   (In q (effective d u) /\ q <> p) \/
   (q = p /\ role_confers d (role_or_default (roles_of_user u d)) p)).
Proof.
  intros [Ni Nn] Inv Cp P.
  assert (Q : In q [p] <-> q = p) by (simpl; intuition congruence).
  assert (D1 : "grant" <> "revoke") by discriminate.
  assert (D2 : "revoke" <> "grant") by discriminate.
  pose proof (overridden_in_catalog d u "grant" q) as C2.
  rewrite (effective_after d d u q) by (now repeat split).
  unfold grantUserPermission, revokeUserPermission.
  rewrite !typed_by_name_is_bulk by (assumption || discriminate).
  split; [| split].
  - rewrite (effective_after d (bulk_written u [p] "grant" d) u q) by (now repeat split).
    rewrite !overridden_bulk_written by assumption. rewrite Q.
    destruct (string_dec q p) as [-> |]; intuition.
  - rewrite (effective_after d (bulk_written u [p] "revoke" d) u q) by (now repeat split).
    rewrite !overridden_bulk_written by assumption. rewrite Q.
    destruct (string_dec q p) as [-> |]; intuition.
  - rewrite (reset_one_by_name_run d u p P).
    destruct Cp as [[i n] [Hp En]]. simpl in En. subst n.
    destruct (permission_ids_by_name p d) as [| j ids] eqn:E.
    + exfalso. assert (Hin : In i (permission_ids_by_name p d)).
      { unfold permission_ids_by_name.
        apply (in_map perm_id _ (mkPermission i p)).
        apply filter_In. split; [assumption | apply String.eqb_refl]. }
      now rewrite E in Hin.
    + destruct (permission_ids_by_name_In d p j) as [x (Hx & Exn & Exi)];
        [rewrite E; now left |].
      assert (x = mkPermission i p)
        by (apply (NoDup_map_inj perm_name (permissions d)); assumption).
      subst x. simpl in Exi. subst j.
      rewrite effective_after by (now repeat split).
      rewrite !(overridden_deleted d u i p) by (try split; assumption).
      destruct (string_dec q p) as [-> |]; intuition.
Qed.

(** ** Doing a bulk update twice *)

Lemma one_row_tail (x : UserPermission) (tbl : list UserPermission) :
  one_row_per_pair (x :: tbl) -> one_row_per_pair tbl.
Proof.
  intros H u p. specialize (H u p). unfold rows_of in *. simpl in H.
  destruct (has_key u p x); simpl in H; lia.
Qed.

Lemma one_row_head (x r y : UserPermission) (tbl : list UserPermission) :
  one_row_per_pair (x :: tbl) -> same_key x r = true -> In y tbl -> same_key y r = false.
Proof.
  intros H E Hy. destruct (same_key y r) eqn:Ey; [exfalso | reflexivity].
  specialize (H (up_userId r) (up_permissionId r)). unfold rows_of in H. simpl in H.
  assert (K : has_key (up_userId r) (up_permissionId r) r = true).
  { unfold has_key. now rewrite !Z.eqb_refl. }
  rewrite <- (same_key_has_key x r _ _ K), E in H. simpl in H.
  assert (Hin : In y (filter (has_key (up_userId r) (up_permissionId r)) tbl)).
  { apply filter_In. split; [assumption |]. now rewrite <- (same_key_has_key y r _ _ K). }
  destruct (filter (has_key (up_userId r) (up_permissionId r)) tbl);
    [contradiction | simpl in H; lia].
Qed.

Lemma upsert_present (r : UserPermission) (t : string) (tbl : list UserPermission) :
  one_row_per_pair tbl ->
  existsb (fun x => same_key x r) tbl = true ->
  upsert r t tbl = map (retag [r] t) tbl.
Proof.
  induction tbl as [| x tbl IH]; intros Inv P; simpl in *; [discriminate |].
  unfold retag at 1. simpl. rewrite orb_false_r.
  destruct (same_key x r) eqn:E; simpl in *.
  - f_equal. rewrite <- (map_id tbl) at 1. apply map_ext_in. intros y Hy.
    unfold retag. simpl. now rewrite (one_row_head x r y tbl Inv E Hy).
  - f_equal. apply IH; [now apply one_row_tail in Inv | exact P].
Qed.

Lemma existsb_map_retag (values : list UserPermission) (t : string) (w : UserPermission)
  (tbl : list UserPermission) :
  existsb (fun x => same_key x w) (map (retag values t) tbl) =
  existsb (fun x => same_key x w) tbl.
Proof.
  induction tbl as [| x tbl IH]; simpl; [reflexivity |]. rewrite IH. f_equal.
  unfold retag. now destruct (existsb (same_key x) values).
Qed.

Lemma retag_cons (v : UserPermission) (values : list UserPermission) (t : string)
  (x : UserPermission) :
  retag values t (retag [v] t x) = retag (v :: values) t x.
Proof.
  unfold retag. simpl. rewrite orb_false_r.
  destruct (same_key x v); simpl; [| reflexivity].
  change (existsb (same_key (set_type x t)) values) with (existsb (same_key x) values).
  now destruct (existsb (same_key x) values).
Qed.

Lemma upsert_all_present (values : list UserPermission) (t : string)
  (tbl : list UserPermission) :
  one_row_per_pair tbl ->
  (forall v, In v values -> existsb (fun x => same_key x v) tbl = true) ->
  upsert_all values t tbl = map (retag values t) tbl.
Proof.
  unfold upsert_all. revert tbl.
  induction values as [| v values IH]; intros tbl Inv P; simpl.
  - rewrite <- (map_id tbl) at 1. now apply map_ext.
  - assert (E : upsert v t tbl = map (retag [v] t) tbl)
      by (apply upsert_present; [exact Inv | apply P; now left]).
    rewrite IH.
    + rewrite E, map_map. apply map_ext. intros x. apply retag_cons.
    + now apply upsert_one_row.
    + intros w Hw. rewrite E, existsb_map_retag. apply P. now right.
Qed.

Lemma present_of_In (v : UserPermission) (tbl : list UserPermission) :
  (exists t, In (set_type v t) tbl) -> existsb (fun x => same_key x v) tbl = true.
Proof.
  intros [t H]. apply existsb_exists. exists (set_type v t). split; [exact H |].
  exact (same_key_refl v).
Qed.

Lemma bulk_rows_typed (d : DB) (u : Z) (names : list string) (ty : string)
  (v : UserPermission) :
  In v (bulk_rows u names ty d) -> up_type v = ty.
Proof. intros H. apply bulk_rows_In in H as [x (_ & _ & ->)]. reflexivity. Qed.

Lemma twice_upserted (G R : list UserPermission) (tbl : list UserPermission) :
  one_row_per_pair tbl ->
  (forall v, In v G -> up_type v = "grant") ->
  (forall v, In v R -> up_type v = "revoke") ->
  let once := upsert_all R "revoke" (upsert_all G "grant" tbl) in
  upsert_all R "revoke" (upsert_all G "grant" once) = once.
Proof.
  intros Inv TG TR once.
  assert (Inv0 : one_row_per_pair (upsert_all G "grant" tbl))
    by now apply upsert_all_one_row.
  assert (Inv1 : one_row_per_pair once) by now apply upsert_all_one_row.
  assert (PG : forall v, In v G -> existsb (fun x => same_key x v) once = true).
  { intros v Hv. apply present_of_In.
    destruct (upsert_all_keeps_row R v "revoke" (upsert_all G "grant" tbl)) as [K | K].
    - apply upsert_all_writes; [exact Hv | now apply TG].
    - exists (up_type v). now rewrite set_type_same.
    - now exists "revoke". }
  assert (PR : forall v, In v R -> existsb (fun x => same_key x v) once = true).
  { intros v Hv. apply present_of_In. exists (up_type v). rewrite set_type_same.
    apply upsert_all_writes; [exact Hv | now apply TR]. }
  rewrite (upsert_all_present G "grant" once Inv1 PG).
  rewrite upsert_all_present.
  - rewrite map_map. rewrite <- (map_id once) at 2. apply map_ext_in. intros x Hx.
    apply (upsert_all_In_iff R x "revoke" _ Inv0 TR) in Hx.
    unfold retag at 1.
    assert (K : existsb (same_key (retag G "grant" x)) R = existsb (same_key x) R).
    { unfold retag. now destruct (existsb (same_key x) G). }
    rewrite K. destruct (existsb (same_key x) R) eqn:ER.
    + destruct Hx as [[_ Hx] | Hx]; [discriminate |].
      unfold retag. destruct (existsb (same_key x) G);
        rewrite ?set_type_set_type, <- (TR x Hx); apply set_type_same.
    + destruct Hx as [[Hx _] | Hx].
      * apply (upsert_all_In_iff G x "grant" _ Inv TG) in Hx.
        unfold retag. destruct (existsb (same_key x) G) eqn:EG; [| reflexivity].
        destruct Hx as [[_ Hx] | Hx]; [discriminate |].
        rewrite <- (TG x Hx). apply set_type_same.
      * exfalso. assert (C : existsb (same_key x) R = true).
        { apply existsb_exists. exists x. split; [exact Hx | apply same_key_refl]. }
        congruence.
  - rewrite <- (upsert_all_present G "grant" once Inv1 PG). now apply upsert_all_one_row.
  - intros v Hv. rewrite existsb_map_retag. now apply PR.
Qed.

(** X12: when every pair has at most one override row, sending the same
    bulk update a second time on reliable storage leaves the database as the
    first left it (and succeeds as the first did). *)
Theorem bulk_update_idempotent (d : DB) (u : Z) (body : Body) :
  one_row_per_pair (user_permissions d) ->
  is_bulk body = true ->
  let d' := after (updateUserPermission u body) d in
  after (updateUserPermission u body) d' = d' /\
  answer (updateUserPermission u body) d' = answer (updateUserPermission u body) d.
Proof.
  intros Inv B d'.
  destruct (update_bulk_reliable d u body B) as [Ha Hd].
  assert (E' : d' = bulk_written u (or_empty (revokePermissions body)) "revoke"
                 (bulk_written u (or_empty (grantPermissions body)) "grant" d))
    by exact Hd.
  destruct (update_bulk_reliable d' u body B) as [Ha' Hd'].
  split; [| now rewrite Ha, Ha'].
  rewrite Hd', E'. unfold bulk_written. simpl. unfold with_user_permissions. simpl.
  f_equal. unfold bulk_rows, permissions_by_names. simpl.
  apply (twice_upserted
           (map (fun q => mkUserPermission u (perm_id q) "grant")
                (filter (fun q => mem (perm_name q) (or_empty (grantPermissions body)))
                        (permissions d)))
           (map (fun q => mkUserPermission u (perm_id q) "revoke")
                (filter (fun q => mem (perm_name q) (or_empty (revokePermissions body)))
                        (permissions d)))
           (user_permissions d) Inv).
  - intros v Hv. apply in_map_iff in Hv as [x [<- _]]. reflexivity.
  - intros v Hv. apply in_map_iff in Hv as [x [<- _]]. reflexivity.
Qed.

(** ** Failing reads *)

(** X13: a read handler answers the 500 "Server error" exactly when one of
    the storage calls it makes fails (three for [getUserPermissions], one
    for the other two), and otherwise what it answers on reliable storage. *)
Theorem reads_fail_with_500 (faulty : nat -> bool) (d : DB) (u : Z) (role : string) :
  fst (handle (getUserPermissions u) faulty d) =
    (if faulty 0%nat || faulty 1%nat || faulty 2%nat then Failure 500 "Server error"
     else answer (getUserPermissions u) d) /\
  fst (handle (getRolePermissions role) faulty d) =
    (if faulty 0%nat then Failure 500 "Server error"
     else answer (getRolePermissions role) d) /\
  fst (handle getAllPermissions faulty d) =
    (if faulty 0%nat then Failure 500 "Server error"
     else OkData (PermissionList (permissions d))).
Proof.
  unfold answer. rewrite getUserPermissions_run, getRolePermissions_run.
  unfold handle, getUserPermissions, getRolePermissions, getAllPermissions,
    bind, pool_query, ret. simpl.
  destruct (faulty 0%nat); simpl; [now repeat split |].
  destruct (faulty 1%nat); simpl; [now repeat split |].
  destruct (faulty 2%nat); simpl; now repeat split.
Qed.

(** ** Rows that point outside the Catalog *)

Lemma flat_map_filter {A B} (f : A -> list B) (g : A -> bool) (l : list A) :
  (forall x, g x = false -> f x = []) -> flat_map f (filter g l) = flat_map f l.
Proof.
  intros H. induction l as [| x l IH]; simpl; [reflexivity |].
  destruct (g x) eqn:E; simpl; rewrite IH; [reflexivity |]. now rewrite (H x E).
Qed.

Lemma joined_dangling (d : DB) (i : Z) :
  points_at_catalog d i = false -> joined i d = [].
Proof.
  unfold points_at_catalog, joined. intros H. apply filter_none. intros q Hq.
  destruct (i =? perm_id q)%Z eqn:E; [| reflexivity].
  assert (C : existsb (fun q => (i =? perm_id q)%Z) (permissions d) = true)
    by (apply existsb_exists; now exists q).
  congruence.
Qed.

(** X14: every name in the four lists [getUserPermissions] answers is a
    Catalog name, and override rows and role rows whose permission
    identifier has no Catalog entry do not count: without them the answer is
    the same. *)
Theorem resolver_reads_through_catalog (d : DB) (u : Z) :
  (exists role eff rolePerms granted revoked,
     answer (getUserPermissions u) d =
       OkData (UserView u role eff rolePerms granted revoked) /\
     forall q, In q eff \/ In q rolePerms \/ In q granted \/ In q revoked ->
               in_catalog d q) /\
  answer (getUserPermissions u) (without_dangling d) = answer (getUserPermissions u) d.
Proof.
  split.
  - unfold answer. rewrite getUserPermissions_run. simpl. do 5 eexists.
    split; [reflexivity |]. intros q H.
    rewrite fold_set_delete_In, fold_set_add_In, new_Set_In in H.
    rewrite !names_of_type_In, !overrides_of_user_In, names_of_role_In in H.
    destruct H as [[[H | H] _] | [H | [H | H]]];
      first [ eapply names_of_role_in_catalog, H | eapply overridden_in_catalog, H ].
  - unfold answer. rewrite !getUserPermissions_run.
    assert (O : overrides_of_user u (without_dangling d) = overrides_of_user u d).
    { unfold overrides_of_user, without_dangling, joined. simpl.
      rewrite filter_swap. apply flat_map_filter. intros x Hx.
      fold (joined (up_permissionId x) d). now rewrite joined_dangling. }
    assert (N : forall role, names_of_role role (without_dangling d) = names_of_role role d).
    { intros role. unfold names_of_role, without_dangling, joined. simpl.
      rewrite filter_swap. apply flat_map_filter. intros x Hx.
      fold (joined (rp_permissionId x) d). now rewrite joined_dangling. }
    change (roles_of_user u (without_dangling d)) with (roles_of_user u d).
    rewrite O, N. reflexivity.
Qed.

(** ** A replace that names nothing known *)

(** X15: on reliable storage a role replace whose names are absent, empty
    or all unknown to the Catalog succeeds and leaves the role without any
    permission: its rows are deleted and nothing is inserted. *)
Theorem replace_without_known_names (d : DB) (role : string) (body : Body) :
  (forall n, In n (or_empty (permissionNames body)) -> ~ in_catalog d n) ->
  answer (updateRolePermissions role body) d = OkMessage "Role permissions updated" /\
  after (updateRolePermissions role body) d = role_cleared role d /\
  answer (getRolePermissions role) (after (updateRolePermissions role body) d) =
    OkData (RoleView role role [] 0).
Proof.
  intros H. destruct (update_role_reliable d role body) as [Ha Hd].
  assert (E : permissions_by_names (or_empty (permissionNames body)) d = []).
  { unfold permissions_by_names. apply filter_none. intros q Hq. apply mem_false.
    intros Hn. apply (H _ Hn). now exists q. }
  rewrite Hd, (role_replaced_nil role _ d E). split; [exact Ha |]. split; [reflexivity |].
  unfold answer. rewrite getRolePermissions_run. simpl.
  now rewrite role_cleared_empty.
Qed.

(** ** Reset after any override calls *)

Lemma run_calls_same_but (cs : list (Call * (nat -> bool))) (d : DB) :
  same_but_overrides d (run_calls cs d).
Proof.
  revert d. induction cs as [| [c faulty] cs IH]; intros d; simpl; [now repeat split |].
  destruct (perform_same_but faulty d c) as (Hu & Hp & Hr).
  destruct (IH (db (snd (handle (perform c) faulty d)))) as (Hu' & Hp' & Hr').
  repeat split; congruence.
Qed.

(** X16: whatever override calls were made before, for whichever users and
    with whichever failures, a reset of a user on reliable storage brings
    [getUserPermissions] back to the answer without overrides: the names the
    user's role confers in the database the calls started from, nothing
    granted, nothing revoked. *)
Theorem reset_restores_baseline (d : DB) (cs : list (Call * (nat -> bool))) (u : Z) :
  let role := role_or_default (roles_of_user u d) in
  answer (getUserPermissions u) (after (resetUserPermissions u) (run_calls cs d)) =
  OkData (UserView u role (new_Set (names_of_role role d)) (names_of_role role d) [] []).
Proof.
  intros role. destruct (run_calls_same_but cs d) as (Hu & Hp & Hr).
  set (d1 := run_calls cs d) in *.
  unfold after. rewrite resetUserPermissions_run. cbn [snd db].
  unfold answer. rewrite getUserPermissions_run. cbn [fst].
  set (d2 := with_user_permissions d1 _).
  assert (O : overrides_of_user u d2 = []).
  { unfold overrides_of_user, d2. simpl.
    now rewrite (filter_negb_none (fun r => (up_userId r =? u)%Z)). }
  assert (R : role_or_default (roles_of_user u d2) = role).
  { unfold role, roles_of_user, d2. simpl. now rewrite Hu. }
  assert (N : names_of_role role d2 = names_of_role role d).
  { unfold names_of_role, joined, d2. simpl. now rewrite Hp, Hr. }
  rewrite O, R, N. reflexivity.
Qed.

(** ** The further theorems at the sample data *)

Lemma sample_catalog_keyed : catalog_keyed sample_db.
Proof.
  split; [exact sample_catalog_ids |].
  simpl. repeat constructor; simpl; intuition discriminate.
Defined.

Lemma view_students_known : in_catalog sample_db "view_students".
Proof. exists (mkPermission 2 "view_students"). simpl. auto. Defined.

Lemma bulk_fields_win_witness :
  is_bulk sample_mixed = true /\
  handle (grantUserPermission 7 sample_mixed) reliable sample_db =
  handle (updateUserPermission 7 (bulk_only sample_mixed)) reliable sample_db.
Proof.
  split; [reflexivity |].
  destruct (bulk_fields_win reliable sample_db 7 sample_mixed eq_refl) as (H1 & H2 & _).
  exact (eq_trans H2 H1).
Defined.

Lemma identifier_wins_over_name_witness :
  is_bulk sample_id_and_name = false /\
  truthy_id (permissionId sample_id_and_name) = true /\
  fst (handle (updateUserPermission 7 sample_id_and_name) reliable sample_db) <>
    Failure 404 "Permission not found".
Proof.
  split; [reflexivity |]. split; [reflexivity |].
  exact (proj2 (proj2 (identifier_wins_over_name reliable sample_db 7 sample_id_and_name
                         eq_refl eq_refl))).
Defined.

Lemma empty_bulk_sends_nothing_witness :
  is_bulk sample_empty_lists = true /\
  handle (updateUserPermission 7 sample_empty_lists) (fails_at 0) sample_db =
  (OkMessage "User permissions updated", mkSession sample_db []).
Proof.
  split; [reflexivity |].
  exact (empty_bulk_sends_nothing (fails_at 0) sample_db 7 sample_empty_lists
           eq_refl eq_refl eq_refl).
Defined.

Lemma single_update_frame_witness :
  is_bulk (with_type (by_id 3) "revoke") = false /\
  rows_of 7 2
    (user_permissions
       (db (snd (handle (updateUserPermission 7 (with_type (by_id 3) "revoke"))
                   (fails_at 5) sample_overridden)))) =
  rows_of 7 2 (user_permissions sample_overridden).
Proof.
  split; [reflexivity |].
  refine (single_update_frame (fails_at 5) sample_overridden 7
            (with_type (by_id 3) "revoke") 7 2 eq_refl _).
  right. compute. discriminate.
Defined.

Lemma single_update_effect_witness :
  is_bulk (by_name "view_students") = false /\
  single_target sample_overridden (by_name "view_students") = Some (Some 2%Z) /\
  rows_of 7 2
    (user_permissions (after (updateUserPermission 7 (by_name "view_students"))
                         sample_overridden)) = [].
Proof.
  split; [reflexivity |]. split; [reflexivity |].
  exact (proj2 (single_update_effect sample_overridden 7 2 (by_name "view_students")
                  eq_refl eq_refl)).
Defined.

Lemma single_update_idempotent_witness :
  is_bulk (with_type (by_name "create_quiz") "revoke") = false /\
  after (updateUserPermission 7 (with_type (by_name "create_quiz") "revoke"))
    (after (updateUserPermission 7 (with_type (by_name "create_quiz") "revoke"))
       sample_overridden) =
  after (updateUserPermission 7 (with_type (by_name "create_quiz") "revoke"))
    sample_overridden.
Proof.
  split; [reflexivity |].
  exact (proj1 (single_update_idempotent sample_overridden 7
                  (with_type (by_name "create_quiz") "revoke") eq_refl)).
Defined.

Lemma override_calls_keep_other_users_witness :
  call_user (Update 8 sample_bulk) <> 7%Z /\
  answer (getUserPermissions 7)
    (db (snd (handle (perform (Update 8 sample_bulk)) (fails_at 3) sample_overridden))) =
  answer (getUserPermissions 7) sample_overridden.
Proof.
  assert (H : call_user (Update 8 sample_bulk) <> 7%Z) by (simpl; lia).
  split; [exact H |].
  exact (proj2 (override_calls_keep_other_users (fails_at 3) sample_overridden
                  (Update 8 sample_bulk) 7 H)).
Defined.

Lemma role_replace_keeps_other_roles_witness :
  "Instructor" <> "Admin" /\
  answer (getRolePermissions "Instructor")
    (db (snd (handle (updateRolePermissions "Admin" sample_replace) (fails_at 1)
                sample_db))) =
  answer (getRolePermissions "Instructor") sample_db.
Proof.
  assert (H : "Instructor" <> "Admin") by discriminate.
  split; [exact H |].
  exact (proj1 (role_replace_keeps_other_roles (fails_at 1) sample_db "Admin"
                  sample_replace 7 "Instructor" H)).
Defined.

Lemma bulk_update_on_effective_set_witness :
  NoDup (map perm_id (permissions sample_overridden)) /\
  one_row_per_pair (user_permissions sample_overridden) /\
  is_bulk sample_both = true /\
  (In "view_students"
      (effective (after (updateUserPermission 7 sample_both) sample_overridden) 7) <->
   ~ In "view_students" (or_empty (revokePermissions sample_both)) /\
   (In "view_students" (effective sample_overridden 7) \/
    (In "view_students" (or_empty (grantPermissions sample_both)) /\
     in_catalog sample_overridden "view_students"))).
Proof.
  split; [exact sample_catalog_ids |]. split; [exact sample_overridden_one_row |].
  split; [reflexivity |].
  exact (bulk_update_on_effective_set sample_overridden 7 sample_both "view_students"
           sample_catalog_ids sample_overridden_one_row eq_refl).
Defined.

Lemma single_updates_on_effective_set_witness :
  catalog_keyed sample_overridden /\
  one_row_per_pair (user_permissions sample_overridden) /\
  in_catalog sample_overridden "view_students" /\
  (In "view_students"
      (effective (after (grantUserPermission 7 (by_name "view_students"))
                    sample_overridden) 7) <->
   In "view_students" (effective sample_overridden 7) \/
   "view_students" = "view_students").
Proof.
  split; [exact sample_catalog_keyed |]. split; [exact sample_overridden_one_row |].
  split; [exact view_students_known |].
  refine (proj1 (single_updates_on_effective_set sample_overridden 7 "view_students"
                   "view_students" sample_catalog_keyed sample_overridden_one_row
                   view_students_known _)).
  discriminate.
Defined.

Lemma bulk_update_idempotent_witness :
  one_row_per_pair (user_permissions sample_overridden) /\
  is_bulk sample_both = true /\
  after (updateUserPermission 7 sample_both)
    (after (updateUserPermission 7 sample_both) sample_overridden) =
  after (updateUserPermission 7 sample_both) sample_overridden.
Proof.
  split; [exact sample_overridden_one_row |]. split; [reflexivity |].
  exact (proj1 (bulk_update_idempotent sample_overridden 7 sample_both
                  sample_overridden_one_row eq_refl)).
Defined.

Lemma replace_without_known_names_witness :
  (forall n, In n (or_empty (permissionNames sample_unknown_replace)) ->
             ~ in_catalog sample_db n) /\
  answer (getRolePermissions "Instructor")
    (after (updateRolePermissions "Instructor" sample_unknown_replace) sample_db) =
  OkData (RoleView "Instructor" "Instructor" [] 0).
Proof.
  assert (H : forall n, In n (or_empty (permissionNames sample_unknown_replace)) ->
                        ~ in_catalog sample_db n).
  { intros n [<- | []]. exact grade_exams_unknown. }
  split; [exact H |].
  exact (proj2 (proj2 (replace_without_known_names sample_db "Instructor"
                         sample_unknown_replace H))).
Defined.

(** ** Overrides: one row per pair *)

Lemma rows_single_key (u p : Z) (old : UserPermission) (t : string)
  (tbl : list UserPermission) :
  rows_of u p tbl = [old] -> set_type old t = mkUserPermission u p t.
Proof.
  intros R. assert (Hin : In old (rows_of u p tbl)) by (rewrite R; now left).
  unfold rows_of in Hin. apply filter_In in Hin as [_ K]. unfold has_key in K.
  apply andb_true_iff in K as [Eu Ep]. apply Z.eqb_eq in Eu, Ep.
  destruct old; simpl in *. now subst.
Qed.

Lemma rows_of_upsert_all_settled (u p : Z) (x : UserPermission)
  (values : list UserPermission) (t : string) (tbl : list UserPermission) :
  rows_of u p tbl = [x] -> up_type x = t ->
  rows_of u p (upsert_all values t tbl) = [x].
Proof.
  unfold upsert_all. revert tbl.
  induction values as [| v values IH]; intros tbl R T; simpl; [exact R |].
  apply IH; [| exact T]. destruct (has_key u p v) eqn:E.
  - rewrite (rows_of_upsert_same _ _ _ _ _ E), R. f_equal.
    rewrite <- T. apply set_type_same.
  - now rewrite (rows_of_upsert_other _ _ _ _ _ E).
Qed.

Lemma rows_of_upsert_all_same (u p : Z) (old : UserPermission)
  (values : list UserPermission) (t : string) (tbl : list UserPermission) :
  rows_of u p tbl = [old] ->
  (exists v, In v values /\ has_key u p v = true) ->
  rows_of u p (upsert_all values t tbl) = [set_type old t].
Proof.
  revert tbl.
  induction values as [| v values IH]; intros tbl R [w [Hw K]]; [contradiction |].
  change (upsert_all (v :: values) t tbl) with (upsert_all values t (upsert v t tbl)).
  destruct (has_key u p v) eqn:E.
  - apply rows_of_upsert_all_settled; [| reflexivity].
    now rewrite (rows_of_upsert_same _ _ _ _ _ E), R.
  - apply IH.
    + now rewrite (rows_of_upsert_other _ _ _ _ _ E).
    + destruct Hw as [-> | Hw]; [congruence | now exists w].
Qed.

(** C2: if every (userId, permissionId) pair has at most one override row,
    then so it is after any sequence of override calls (updates in bulk or
    single form, the grant and revoke wrappers, resets), whichever storage
    calls fail on the way.  A writing update (bulk, or single with a type)
    on reliable storage leaves a pair that had exactly one row with exactly
    one row.  The type of that row is the written one: after a single update
    with a type that resolves to the pair, by identifier or by name, the row
    is (u, p, type) and the table is as long as it was; after a bulk update
    the row of a Catalog entry named to revoke is (u, id, "revoke"), and the
    row of one named to grant, no entry of its identifier being named to
    revoke, is (u, id, "grant"). *)
Theorem override_writes_one_row_per_pair (d : DB) (cs : list (Call * (nat -> bool))) :
  one_row_per_pair (user_permissions d) ->
  one_row_per_pair (user_permissions (run_calls cs d)) /\
  (forall u body u' p old,
    is_bulk body || truthy_string (type body) = true ->
    rows_of u' p (user_permissions d) = [old] ->
    exists ty,
      rows_of u' p (user_permissions (after (updateUserPermission u body) d)) =
      [set_type old ty]) /\
  (forall u p ty old,
    ty <> "" ->
    rows_of u p (user_permissions d) = [old] ->
    let d' := after (updateUserPermission u
                       (mkBody None None (Some p) (Some ty) None None)) d in
    rows_of u p (user_permissions d') = [mkUserPermission u p ty] /\
    length (user_permissions d') = length (user_permissions d)) /\
  (forall u body p ty old,
    is_bulk body = false ->
    single_target d body = Some (Some p) ->
    type body = Some ty ->
    ty <> "" ->
    rows_of u p (user_permissions d) = [old] ->
    let d' := after (updateUserPermission u body) d in
    rows_of u p (user_permissions d') = [mkUserPermission u p ty] /\
    length (user_permissions d') = length (user_permissions d)) /\
  (forall u body perm old,
    is_bulk body = true ->
    In perm (permissions d) ->
    rows_of u (perm_id perm) (user_permissions d) = [old] ->
    let d' := after (updateUserPermission u body) d in
    (In (perm_name perm) (or_empty (revokePermissions body)) ->
     rows_of u (perm_id perm) (user_permissions d') =
       [mkUserPermission u (perm_id perm) "revoke"]) /\
    (In (perm_name perm) (or_empty (grantPermissions body)) ->
     (forall q, In q (permissions d) -> perm_id q = perm_id perm ->
                ~ In (perm_name q) (or_empty (revokePermissions body))) ->
     rows_of u (perm_id perm) (user_permissions d') =
       [mkUserPermission u (perm_id perm) "grant"])).
Proof.
  intros H. split; [| split; [| split; [| split]]].
  - apply (preserves_run_calls (fun x => one_row_per_pair (user_permissions x)));
      [apply one_row_stable | exact H].
  - intros u body u' p old W R. destruct (is_bulk body) eqn:B.
    + destruct (update_bulk_reliable d u body B) as [_ ->].
      unfold bulk_written at 1. simpl.
      destruct (upsert_all_single_row u' p old
                  (bulk_rows u (or_empty (grantPermissions body)) "grant" d) "grant"
                  (user_permissions d) R) as [t1 R1].
      destruct (upsert_all_single_row u' p (set_type old t1)
                  (bulk_rows u (or_empty (revokePermissions body)) "revoke"
                     (bulk_written u (or_empty (grantPermissions body)) "grant" d))
                  "revoke" _ R1) as [t2 R2].
      exists t2. exact R2.
    + simpl in W. destruct (update_single_typed d u body B W) as [-> | [q [ty ->]]].
      * exists (up_type old). now rewrite set_type_same.
      * simpl. now apply upsert_single_row.
  - intros u p ty old T R d'.
    assert (Ed : d' = with_user_permissions d
                       (upsert (mkUserPermission u p ty) ty (user_permissions d))).
    { unfold d', after, handle, updateUserPermission, bind, pool_query, ret, reliable.
      simpl. destruct (String.eqb_spec ty ""); [contradiction | reflexivity]. }
    assert (K : has_key u p (mkUserPermission u p ty) = true).
    { unfold has_key. simpl. now rewrite !Z.eqb_refl. }
    assert (Ko : has_key u p old = true).
    { assert (Hin : In old (rows_of u p (user_permissions d))) by (rewrite R; now left).
      unfold rows_of in Hin. now apply filter_In in Hin. }
    rewrite Ed. simpl. split.
    + rewrite (rows_of_upsert_same _ _ _ _ _ K), R. f_equal.
      unfold has_key in Ko. apply andb_true_iff in Ko as [Eu Ep].
      apply Z.eqb_eq in Eu, Ep. destruct old; simpl in *. now subst.
    + rewrite upsert_length. simpl. now rewrite R.
  - intros u body p ty old B T Ty Ne R d'.
    assert (Ed : d' = with_user_permissions d
                       (upsert (mkUserPermission u p ty) ty (user_permissions d))).
    { unfold d'. destruct (update_single_reliable d u body B) as [-> _].
      unfold single_written. rewrite T. unfold single_stmt. rewrite Ty. simpl.
      destruct (String.eqb_spec ty ""); [contradiction | reflexivity]. }
    assert (K : has_key u p (mkUserPermission u p ty) = true).
    { unfold has_key. simpl. now rewrite !Z.eqb_refl. }
    rewrite Ed. simpl. split.
    + rewrite (rows_of_upsert_same _ _ _ _ _ K), R.
      now rewrite (rows_single_key u p old ty _ R).
    + rewrite upsert_length. simpl. now rewrite R.
  - intros u body perm old B Hp R d'.
    assert (Ed : d' = bulk_written u (or_empty (revokePermissions body)) "revoke"
                   (bulk_written u (or_empty (grantPermissions body)) "grant" d))
      by apply (update_bulk_reliable d u body B).
    set (i := perm_id perm) in *.
    set (G := or_empty (grantPermissions body)) in *.
    set (Rv := or_empty (revokePermissions body)) in *.
    set (d1 := bulk_written u G "grant" d) in *.
    split.
    + intros Hr. rewrite Ed.
      destruct (upsert_all_single_row u i old (bulk_rows u G "grant" d) "grant"
                  (user_permissions d) R) as [t1 R1].
      unfold bulk_written at 1. cbn [user_permissions with_user_permissions].
      rewrite (rows_of_upsert_all_same u i (set_type old t1) (bulk_rows u Rv "revoke" d1)
                 "revoke" (user_permissions d1) R1).
      * rewrite set_type_set_type. now rewrite (rows_single_key u i old "revoke" _ R).
      * exists (mkUserPermission u i "revoke"). split.
        -- apply bulk_rows_In. exists perm. now repeat split.
        -- unfold has_key. simpl. now rewrite !Z.eqb_refl.
    + intros Hg Hn. rewrite Ed.
      rewrite (bulk_written_frame d1 u u i Rv "revoke") by (right; exact Hn).
      unfold d1, bulk_written. cbn [user_permissions with_user_permissions].
      rewrite (rows_of_upsert_all_same u i old (bulk_rows u G "grant" d) "grant"
                 (user_permissions d) R).
      * now rewrite (rows_single_key u i old "grant" _ R).
      * exists (mkUserPermission u i "grant"). split.
        -- apply bulk_rows_In. exists perm. now repeat split.
        -- unfold has_key. simpl. now rewrite !Z.eqb_refl.
Qed.

Lemma override_writes_one_row_per_pair_witness :
  one_row_per_pair (user_permissions sample_overridden) /\
  one_row_per_pair (user_permissions (run_calls sample_calls sample_overridden)) /\
  rows_of 7 3 (user_permissions (after (updateUserPermission 7 sample_swap)
                                   sample_overridden)) =
    [mkUserPermission 7 3 "revoke"] /\
  rows_of 7 2 (user_permissions (after (updateUserPermission 7 sample_swap)
                                   sample_overridden)) =
    [mkUserPermission 7 2 "grant"].
Proof.
  pose proof (override_writes_one_row_per_pair sample_overridden sample_calls
                sample_overridden_one_row) as (H1 & _ & _ & _ & H5).
  split; [exact sample_overridden_one_row |]. split; [exact H1 |]. split.
  - refine (proj1 (H5 7%Z sample_swap (mkPermission 3 "edit_syllabus")
                     (mkUserPermission 7 3 "grant") eq_refl _ eq_refl) _).
    + simpl. auto.
    + simpl. now left.
  - refine (proj2 (H5 7%Z sample_swap (mkPermission 2 "view_students")
                     (mkUserPermission 7 2 "revoke") eq_refl _ eq_refl) _ _).
    + simpl. auto.
    + simpl. now left.
    + intros q Hq E. simpl in Hq.
      destruct Hq as [<- | [<- | [<- | []]]]; simpl in E; try discriminate E.
      simpl. intros [H | []]. discriminate H.
Defined.

